(** * Verification of the [char_counter] WebAssembly plugin of firelynx

    Shallow embedding of [examples/wasm/rust/char_counter/src/lib.rs]
    ([count_characters]) together with the parts of the Rust standard
    library and of serde/serde_json whose behaviour it relies on:
    - [str::to_lowercase] (alloc/src/str.rs), including its contextual
      rule for the capital sigma, over the Unicode tables it consults;
    - [HashSet<char>] with a randomly keyed hasher ([RandomState]);
    - [serde_json::from_str] into the [#[derive(Deserialize)]] structs
      [InputData], [RequestData] and [StaticData].

    A Rust [String] is its list of Unicode scalar values, each a [Z]. *)

From Stdlib Require Import ZArith Lia Bool Ascii String.
From stdpp Require Import base list gmap.

Open Scope Z_scope.

(** A Rust [String] / [&str]: its Unicode scalar values. *)
Abbreviation rstring := (list Z).

(** The scalars of an ASCII literal written as a Rocq string. *)
Definition u (s : string) : rstring :=
  map (fun a => Z.of_nat (nat_of_ascii a)) (list_ascii_of_string s).

Fixpoint rstring_eqb (a b : rstring) : bool :=
  match a, b with
  | [], [] => true
  | x :: a', y :: b' => (x =? y) && rstring_eqb a' b'
  | _, _ => false
  end.

(** ** Results: [Result<T, E>] *)

Inductive result (A E : Type) : Type :=
| Ok (a : A)
| Err (e : E).
Arguments Ok {A E} a.
Arguments Err {A E} e.

Definition res_bind {A B E} (m : result A E) (k : A -> result B E) : result B E :=
  match m with Ok a => k a | Err e => Err e end.

(** The [?] operator. *)
Notation "'let?' p ':=' m 'in' k" :=
  (res_bind m (fun x => match x with p => k end))
  (at level 200, p pattern, m at level 100, k at level 200).

(** ** Unicode tables consulted by the standard library *)

(** [core::unicode::conversions::to_lower] returns three chars padded
    with ['\0']; [Case_Ignorable] and [Cased] are the derived Unicode
    properties used for the final-sigma rule. *)
Class UnicodeTables := {
  to_lower : Z -> Z * Z * Z;
  Case_Ignorable : Z -> bool;
  Cased : Z -> bool
}.

(** U+03A3 GREEK CAPITAL LETTER SIGMA and its two lowercase forms. *)
Definition CAPITAL_SIGMA : Z := 931.
Definition SMALL_SIGMA : Z := 963.
Definition FINAL_SIGMA : Z := 962.

Section Lowercase.
Context `{UnicodeTables}.

(** [case_ignorable_then_cased(iter)]:
    [iter.skip_while(Case_Ignorable).next()] is cased. *)
Fixpoint case_ignorable_then_cased (it : rstring) : bool :=
  match it with
  | [] => false
  | c :: r => if Case_Ignorable c then case_ignorable_then_cased r else Cased c
  end.

(** [map_uppercase_sigma(from, i)]: [before] is [from[..i]] and
    [after] is [from[i + 2..]]. *)
Definition map_uppercase_sigma (before after : rstring) : Z :=
  if case_ignorable_then_cased (rev before)
     && negb (case_ignorable_then_cased after)
  then FINAL_SIGMA else SMALL_SIGMA.

(** The [match conversions::to_lower(c)] arms of [to_lowercase]. *)
Definition push_lower (c : Z) : rstring :=
  match to_lower c with
  | (a, b, c') =>
      if b =? 0 then [a]
      else if c' =? 0 then [a; b]
      else [a; b; c']
  end.

(** The loop [for (i, c) in rest.char_indices()] of [to_lowercase];
    [before] is the part of the original string left of [c].  The
    ASCII prefix that [convert_while_ascii] handles with
    [u8::to_ascii_lowercase] gets the same result as [to_lower], so it
    is folded into the loop. *)
Fixpoint to_lowercase_from (before rest : rstring) : rstring :=
  match rest with
  | [] => []
  | c :: r =>
      (if c =? CAPITAL_SIGMA then [map_uppercase_sigma before r]
       else push_lower c) ++ to_lowercase_from (before ++ [c]) r
  end.

(** [str::to_lowercase]. *)
Definition to_lowercase (s : rstring) : rstring := to_lowercase_from [] s.
End Lowercase.

(** ** [HashSet<char>] *)

(** The hash of a char under the [RandomState] keys drawn when the set
    is created; the keys differ from one call to the next. *)
Definition Hasher := Z -> Z.

(** A hash set: buckets of chars indexed by hash. *)
Abbreviation HashSet := (gmap Z (list Z)).

Definition hs_contains (h : Hasher) (s : HashSet) (x : Z) : bool :=
  match s !! h x with
  | Some b => existsb (Z.eqb x) b
  | None => false
  end.

Definition hs_insert (h : Hasher) (x : Z) (s : HashSet) : HashSet :=
  match s !! h x with
  | Some b => if existsb (Z.eqb x) b then s else <[h x := x :: b]> s
  | None => <[h x := [x]]> s
  end.

(** [iter.collect::<HashSet<char>>()]. *)
Definition hs_collect (h : Hasher) (l : list Z) : HashSet :=
  fold_left (fun s x => hs_insert h x s) l ∅.

(** ** The data model of [lib.rs] *)

(** [struct RequestData] (only [Body] is deserialized). *)
Record RequestData := { body : rstring }.

(** [struct StaticData]. *)
Record StaticData := {
  search_characters : option rstring;
  case_sensitive : option bool
}.

(** [struct InputData]. *)
Record InputData := {
  request : RequestData;
  static_data : option StaticData
}.

(** [types::CharacterReport] of [pdk.rs]. *)
Record CharacterReport := {
  count : Z;            (* i32 *)
  characters : rstring
}.

(** serde's deserialization errors; [Syntax] carries the name of the
    serde_json [ErrorCode]. *)
Inductive DeError :=
| Syntax (code : string)
| InvalidType
| InvalidLength (n : nat)
| MissingField (field : string)
| DuplicateField (field : string).

(** The two [extism_pdk::Error::msg] errors of [count_characters]:
    ["Invalid JSON input: {e}"] and ["Character set cannot be empty"]. *)
Inductive PdkError :=
| InvalidJsonInput (e : DeError)
| CharacterSetEmpty.

(** ["aeiouAEIOU"], the default vowels. *)
Definition default_vowels : rstring := u "aeiouAEIOU".

(** [usize as i32]: keep the low 32 bits, read them as two's complement. *)
Definition as_i32 (n : nat) : Z :=
  (Z.of_nat n + 2 ^ 31) mod 2 ^ 32 - 2 ^ 31.

(** Lines 73-77: [matching_chars]. *)
Definition matching_chars (input_data : InputData) : rstring :=
  match static_data input_data with
  | Some sd =>
      match search_characters sd with
      | Some s => s
      | None => default_vowels
      end
  | None => default_vowels
  end.

(** Lines 79-82: [case_sensitive]. *)
Definition case_sensitive_of (input_data : InputData) : bool :=
  match static_data input_data with
  | Some sd =>
      match case_sensitive sd with
      | Some b => b
      | None => false
      end
  | None => false
  end.

Section Counting.
Context `{UnicodeTables}.
Variable h : Hasher.

(** Lines 90-94: [search_text]. *)
Definition search_text_of (input_data : InputData) : rstring :=
  if case_sensitive_of input_data then body (request input_data)
  else to_lowercase (body (request input_data)).

(** Lines 96-100: [target_chars]. *)
Definition target_chars_of (input_data : InputData) : rstring :=
  let matching := matching_chars input_data in
  if case_sensitive_of input_data then matching else to_lowercase matching.

(** Lines 102-107: the chars of [search_text] found in the set built
    from [target_chars]. *)
Definition count_matches (search_text target_chars : rstring) : nat :=
  let target_set := hs_collect h target_chars in
  length (List.filter (fun c => hs_contains h target_set c) search_text).

(** Lines 72-112: [count_characters] after the JSON input is decoded. *)
Definition count_characters_data (input_data : InputData)
  : result CharacterReport PdkError :=
  let matching := matching_chars input_data in
  match matching with
  | [] => Err CharacterSetEmpty
  | _ =>
      let n := count_matches (search_text_of input_data) (target_chars_of input_data) in
      Ok {| count := as_i32 n; characters := matching |}
  end.
End Counting.

(** ** [serde_json::from_str]: the JSON text *)

(** serde_json reads the text and drives the derived visitors as it goes;
    here the text is read into a JSON tree first and the visitors run on
    the tree.  Both fail on the same inputs; only which error message is
    reported can differ when a text has several defects. *)
#[local] Set Warnings "-register-all".
Inductive json :=
| JNull
| JBool (b : bool)
| JNumber (raw : rstring)
| JString (s : rstring)
| JArray (l : list json)
| JObject (m : list (rstring * json)).

Definition is_ws (c : Z) : bool := (c =? 32) || (c =? 9) || (c =? 10) || (c =? 13).
Definition is_digit (c : Z) : bool := (48 <=? c) && (c <=? 57).

Fixpoint skip_ws (s : rstring) : rstring :=
  match s with
  | c :: r => if is_ws c then skip_ws r else s
  | [] => []
  end.

Fixpoint strip_prefix (p s : rstring) : option rstring :=
  match p, s with
  | [], _ => Some s
  | a :: p', b :: s' => if a =? b then strip_prefix p' s' else None
  | _ :: _, [] => None
  end.

(** The longest prefix of digits and the rest. *)
Fixpoint span_digits (s : rstring) : rstring * rstring :=
  match s with
  | c :: r =>
      if is_digit c then let '(d, r') := span_digits r in (c :: d, r') else ([], s)
  | [] => ([], [])
  end.

(** [1*DIGIT]: at least one digit. *)
Definition digits1 (s : rstring) : result (rstring * rstring) DeError :=
  match span_digits s with
  | ([], _) => Err (Syntax "InvalidNumber")
  | dr => Ok dr
  end.

(** [parse_integer], [parse_decimal] and [parse_exponent]: the grammar
    [-? (0 | [1-9][0-9]* ) (. [0-9]+)? ([eE] [+-]? [0-9]+)?]; the value
    is irrelevant here, so the raw text is kept. *)
Definition parse_number (s : rstring) : result (rstring * rstring) DeError :=
  let '(sign, s1) := match s with
                     | c :: r => if c =? 45 then ([c], r) else ([], s)
                     | [] => ([], s)
                     end in
  let? (int, s2) :=
    match s1 with
    | c :: r =>
        if c =? 48 then
          match r with
          | d :: _ => if is_digit d then Err (Syntax "InvalidNumber") else Ok ([c], r)
          | [] => Ok ([c], r)
          end
        else digits1 s1
    | [] => Err (Syntax "EofWhileParsingValue")
    end in
  let? (frac, s3) :=
    match s2 with
    | c :: r =>
        if c =? 46 then let? (d, r') := digits1 r in Ok (c :: d, r') else Ok ([], s2)
    | [] => Ok ([], s2)
    end in
  let? (exp, s4) :=
    match s3 with
    | c :: r =>
        if (c =? 101) || (c =? 69) then
          let '(sg, r1) := match r with
                           | d :: r' => if (d =? 43) || (d =? 45) then ([d], r') else ([], r)
                           | [] => ([], r)
                           end in
          let? (d, r2) := digits1 r1 in Ok (c :: sg ++ d, r2)
        else Ok ([], s3)
    | [] => Ok ([], s3)
    end in
  Ok (sign ++ int ++ frac ++ exp, s4).

Definition hex_val (c : Z) : option Z :=
  if is_digit c then Some (c - 48)
  else if (97 <=? c) && (c <=? 102) then Some (c - 87)
  else if (65 <=? c) && (c <=? 70) then Some (c - 55)
  else None.

(** [decode_hex_escape]: four hex digits. *)
Definition hex4 (s : rstring) : option (Z * rstring) :=
  match s with
  | a :: b :: c :: d :: r =>
      match hex_val a, hex_val b, hex_val c, hex_val d with
      | Some a', Some b', Some c', Some d' =>
          Some (((a' * 16 + b') * 16 + c') * 16 + d', r)
      | _, _, _, _ => None
      end
  | _ => None
  end.

(** The one-letter escapes: quote, backslash, slash, b, f, n, r, t. *)
Definition simple_escape (e : Z) : option Z :=
  if e =? 34 then Some 34 else if e =? 92 then Some 92
  else if e =? 47 then Some 47 else if e =? 98 then Some 8
  else if e =? 102 then Some 12 else if e =? 110 then Some 10
  else if e =? 114 then Some 13 else if e =? 116 then Some 9
  else None.

(** [\uXXXX]: a surrogate pair is joined into one scalar; a lone
    surrogate is rejected, as [parse_str] does for a [String]. *)
Definition parse_unicode_escape (s : rstring) : result (Z * rstring) DeError :=
  match hex4 s with
  | None => Err (Syntax "InvalidEscape")
  | Some (n, r) =>
      if (55296 <=? n) && (n <=? 56319) then
        match strip_prefix [92; 117] r with
        | Some r1 =>
            match hex4 r1 with
            | Some (m, r2) =>
                if (56320 <=? m) && (m <=? 57343)
                then Ok (65536 + (n - 55296) * 1024 + (m - 56320), r2)
                else Err (Syntax "LoneLeadingSurrogateInHexEscape")
            | None => Err (Syntax "InvalidEscape")
            end
        | None => Err (Syntax "UnexpectedEndOfHexEscape")
        end
      else if (56320 <=? n) && (n <=? 57343) then
        Err (Syntax "LoneLeadingSurrogateInHexEscape")
      else Ok (n, r)
  end.

(** The characters of a string literal after its opening quote. *)
Fixpoint parse_str (fuel : nat) (acc : rstring) (s : rstring)
  : result (rstring * rstring) DeError :=
  match fuel with
  | O => Err (Syntax "EofWhileParsingString")
  | S f =>
      match s with
      | [] => Err (Syntax "EofWhileParsingString")
      | c :: r =>
          if c =? 34 then Ok (rev acc, r)
          else if c =? 92 then
            match r with
            | [] => Err (Syntax "EofWhileParsingString")
            | e :: r' =>
                match simple_escape e with
                | Some x => parse_str f (x :: acc) r'
                | None =>
                    if e =? 117 then
                      let? (x, r'') := parse_unicode_escape r' in parse_str f (x :: acc) r''
                    else Err (Syntax "InvalidEscape")
                end
            end
          else if c <? 32 then Err (Syntax "ControlCharacterWhileParsingString")
          else parse_str f (c :: acc) r
      end
  end.

(** [parse_value] with the array and object loops of serde_json's
    [SeqAccess] and [MapAccess].  [fuel] bounds the nesting of calls;
    every call consumes at least one character, so [1 + length s] is
    enough for a text [s]. *)
Fixpoint parse_value (fuel : nat) (s : rstring) : result (json * rstring) DeError :=
  match fuel with
  | O => Err (Syntax "RecursionLimitExceeded")
  | S f =>
      match skip_ws s with
      | [] => Err (Syntax "EofWhileParsingValue")
      | c :: r =>
          if c =? 110 then
            match strip_prefix (u "ull") r with
            | Some r' => Ok (JNull, r') | None => Err (Syntax "ExpectedSomeIdent") end
          else if c =? 116 then
            match strip_prefix (u "rue") r with
            | Some r' => Ok (JBool true, r') | None => Err (Syntax "ExpectedSomeIdent") end
          else if c =? 102 then
            match strip_prefix (u "alse") r with
            | Some r' => Ok (JBool false, r') | None => Err (Syntax "ExpectedSomeIdent") end
          else if (c =? 45) || is_digit c then
            let? (raw, r') := parse_number (c :: r) in Ok (JNumber raw, r')
          else if c =? 34 then
            let? (str, r') := parse_str (length r) [] r in Ok (JString str, r')
          else if c =? 91 then
            let? (l, r') := parse_elems f true r in Ok (JArray l, r')
          else if c =? 123 then
            let? (m, r') := parse_members f true r in Ok (JObject m, r')
          else Err (Syntax "ExpectedSomeValue")
      end
  end
with parse_elems (fuel : nat) (first : bool) (s : rstring)
  : result (list json * rstring) DeError :=
  match fuel with
  | O => Err (Syntax "RecursionLimitExceeded")
  | S f =>
      match skip_ws s with
      | [] => Err (Syntax "EofWhileParsingList")
      | c :: r =>
          if c =? 93 then
            if first then Ok ([], r) else Err (Syntax "TrailingComma")
          else
            let? (v, s1) := parse_value f (c :: r) in
            match skip_ws s1 with
            | [] => Err (Syntax "EofWhileParsingList")
            | d :: r1 =>
                if d =? 44 then let? (vs, s2) := parse_elems f false r1 in Ok (v :: vs, s2)
                else if d =? 93 then Ok ([v], r1)
                else Err (Syntax "ExpectedListCommaOrEnd")
            end
      end
  end
with parse_members (fuel : nat) (first : bool) (s : rstring)
  : result (list (rstring * json) * rstring) DeError :=
  match fuel with
  | O => Err (Syntax "RecursionLimitExceeded")
  | S f =>
      match skip_ws s with
      | [] => Err (Syntax "EofWhileParsingObject")
      | c :: r =>
          if c =? 125 then
            if first then Ok ([], r) else Err (Syntax "TrailingComma")
          else if c =? 34 then
            let? (k, s1) := parse_str (length r) [] r in
            match skip_ws s1 with
            | [] => Err (Syntax "EofWhileParsingObject")
            | d :: r1 =>
                if d =? 58 then
                  let? (v, s2) := parse_value f r1 in
                  match skip_ws s2 with
                  | [] => Err (Syntax "EofWhileParsingObject")
                  | e :: r2 =>
                      if e =? 44 then
                        let? (ms, s3) := parse_members f false r2 in Ok ((k, v) :: ms, s3)
                      else if e =? 125 then Ok ([(k, v)], r2)
                      else Err (Syntax "ExpectedObjectCommaOrEnd")
                  end
                else Err (Syntax "ExpectedColon")
            end
          else Err (Syntax "KeyMustBeAString")
      end
  end.

(** A JSON text: one value, then only whitespace ([Deserializer::end]). *)
Definition parse_json (s : rstring) : result json DeError :=
  let? (v, r) := parse_value (S (length s)) s in
  match skip_ws r with
  | [] => Ok v
  | _ => Err (Syntax "TrailingCharacters")
  end.

(** ** The derived [Deserialize] impls *)

(** [String]: [deserialize_string]. *)
Definition de_string (v : json) : result rstring DeError :=
  match v with JString s => Ok s | _ => Err InvalidType end.

(** [bool]: [deserialize_bool]. *)
Definition de_bool (v : json) : result bool DeError :=
  match v with JBool b => Ok b | _ => Err InvalidType end.

(** [Option<T>]: [deserialize_option]; [null] is [None]. *)
Definition de_option {A} (de : json -> result A DeError) (v : json)
  : result (option A) DeError :=
  match v with
  | JNull => Ok None
  | _ => let? a := de v in Ok (Some a)
  end.

(** [visit_seq] reads the fields in order; a missing element is
    [invalid_length]; [end_seq] then refuses further elements. *)
Definition end_seq {A} (rest : list json) (a : A) : result A DeError :=
  match rest with [] => Ok a | _ => Err (Syntax "TrailingCharacters") end.

(** [visit_map] of [RequestData]: [Body] once, other keys ignored. *)
Fixpoint request_fields (ms : list (rstring * json)) (body0 : option rstring)
  : result (option rstring) DeError :=
  match ms with
  | [] => Ok body0
  | (k, v) :: r =>
      if rstring_eqb k (u "Body") then
        match body0 with
        | Some _ => Err (DuplicateField "Body")
        | None => let? b := de_string v in request_fields r (Some b)
        end
      else request_fields r body0
  end.

Definition de_RequestData (v : json) : result RequestData DeError :=
  match v with
  | JObject ms =>
      let? b := request_fields ms None in
      match b with
      | Some b => Ok {| body := b |}
      | None => Err (MissingField "Body")
      end
  | JArray [] => Err (InvalidLength 0)
  | JArray (b :: rest) => let? b := de_string b in end_seq rest {| body := b |}
  | _ => Err InvalidType
  end.

(** [visit_map] of [StaticData]: both fields optional, each at most once. *)
Fixpoint static_fields (ms : list (rstring * json))
  (sc : option (option rstring)) (cs : option (option bool))
  : result (option (option rstring) * option (option bool)) DeError :=
  match ms with
  | [] => Ok (sc, cs)
  | (k, v) :: r =>
      if rstring_eqb k (u "search_characters") then
        match sc with
        | Some _ => Err (DuplicateField "search_characters")
        | None => let? x := de_option de_string v in static_fields r (Some x) cs
        end
      else if rstring_eqb k (u "case_sensitive") then
        match cs with
        | Some _ => Err (DuplicateField "case_sensitive")
        | None => let? x := de_option de_bool v in static_fields r sc (Some x)
        end
      else static_fields r sc cs
  end.

(** A missing [Option] field is [None] ([missing_field]). *)
Definition or_none {A} (o : option (option A)) : option A :=
  match o with Some x => x | None => None end.

Definition de_StaticData (v : json) : result StaticData DeError :=
  match v with
  | JObject ms =>
      let? (sc, cs) := static_fields ms None None in
      Ok {| search_characters := or_none sc; case_sensitive := or_none cs |}
  | JArray [] => Err (InvalidLength 0)
  | JArray [_] => Err (InvalidLength 1)
  | JArray (a :: b :: rest) =>
      let? sc := de_option de_string a in
      let? cs := de_option de_bool b in
      end_seq rest {| search_characters := sc; case_sensitive := cs |}
  | _ => Err InvalidType
  end.

(** [visit_map] of [InputData]: [request] required, [static_data]
    optional, each at most once. *)
Fixpoint input_fields (ms : list (rstring * json))
  (rq : option RequestData) (sd : option (option StaticData))
  : result (option RequestData * option (option StaticData)) DeError :=
  match ms with
  | [] => Ok (rq, sd)
  | (k, v) :: r =>
      if rstring_eqb k (u "request") then
        match rq with
        | Some _ => Err (DuplicateField "request")
        | None => let? x := de_RequestData v in input_fields r (Some x) sd
        end
      else if rstring_eqb k (u "static_data") then
        match sd with
        | Some _ => Err (DuplicateField "static_data")
        | None => let? x := de_option de_StaticData v in input_fields r rq (Some x)
        end
      else input_fields r rq sd
  end.

Definition de_InputData (v : json) : result InputData DeError :=
  match v with
  | JObject ms =>
      let? (rq, sd) := input_fields ms None None in
      match rq with
      | Some rq => Ok {| request := rq; static_data := or_none sd |}
      | None => Err (MissingField "request")
      end
  | JArray [] => Err (InvalidLength 0)
  | JArray [_] => Err (InvalidLength 1)
  | JArray (a :: b :: rest) =>
      let? rq := de_RequestData a in
      let? sd := de_option de_StaticData b in
      end_seq rest {| request := rq; static_data := sd |}
  | _ => Err InvalidType
  end.

(** [serde_json::from_str::<InputData>]. *)
Definition decode_input (input_json : rstring) : result InputData DeError :=
  let? v := parse_json input_json in de_InputData v.

(** ** [count_characters] *)

(** Lines 68-112 on a JSON value: the derived [Deserialize] of
    [InputData], then the computation. *)
Definition count_characters_json `{UnicodeTables} (h : Hasher) (v : json)
  : result CharacterReport PdkError :=
  match de_InputData v with
  | Err e => Err (InvalidJsonInput e)
  | Ok input_data => count_characters_data h input_data
  end.

(** [pub fn count_characters(input_json: String)], lines 67-113; [h] is
    the hasher of the [HashSet] built on line 103. *)
Definition count_characters `{UnicodeTables} (h : Hasher) (input_json : rstring)
  : result CharacterReport PdkError :=
  match parse_json input_json with
  | Err e => Err (InvalidJsonInput e)
  | Ok v => count_characters_json h v
  end.

(** ** Concrete Unicode rows *)

(** The rows of the standard library's tables for the characters the
    concrete examples below use: Basic Latin, Latin-1 Supplement, U+0130
    LATIN CAPITAL LETTER I WITH DOT ABOVE, U+0307 COMBINING DOT ABOVE
    and the Greek letters U+0391-U+03C9.  Other characters get the row of
    an uncased, non-ignorable character that lowercases to itself. *)
Definition in_range (lo hi c : Z) : bool := (lo <=? c) && (c <=? hi).

Definition to_lower_rows (c : Z) : Z * Z * Z :=
  if in_range 65 90 c || in_range 192 214 c || in_range 216 222 c
     || in_range 913 929 c || in_range 931 937 c
  then (c + 32, 0, 0)
  else if c =? 304 then (105, 775, 0)
  else (c, 0, 0).

Definition Cased_rows (c : Z) : bool :=
  in_range 65 90 c || in_range 97 122 c || (c =? 170) || (c =? 181) || (c =? 186)
  || in_range 192 214 c || in_range 216 246 c || in_range 248 255 c
  || (c =? 304) || in_range 913 929 c || in_range 931 937 c || in_range 945 969 c.

Definition Case_Ignorable_rows (c : Z) : bool :=
  (c =? 39) || (c =? 46) || (c =? 58) || (c =? 94) || (c =? 96)
  || (c =? 168) || (c =? 173) || (c =? 175) || (c =? 180) || (c =? 183)
  || (c =? 184) || (c =? 775).

#[export] Instance unicode_rows : UnicodeTables := {|
  to_lower := to_lower_rows;
  Case_Ignorable := Case_Ignorable_rows;
  Cased := Cased_rows
|}.

(** A JSON text written with apostrophes in place of its double quotes. *)
Definition q (s : string) : rstring :=
  map (fun c => if c =? 39 then 34 else c) (u s).

(** Some hasher, for evaluation. *)
Definition h7 : Hasher := fun c => c mod 7.

Definition report_of (r : result CharacterReport PdkError) : option (Z * rstring) :=
  match r with Ok rep => Some (count rep, characters rep) | Err _ => None end.

Example scenario_hello_world :
  report_of (count_characters h7 (q "{'request':{'Body':'Hello World'}}"))
  = Some (3, default_vowels).
Proof. vm_compute. reflexivity. Qed.

Example scenario_empty :
  report_of (count_characters h7 (q "{'request':{'Body':''}}")) = Some (0, default_vowels).
Proof. vm_compute. reflexivity. Qed.

Example scenario_digits :
  report_of (count_characters h7
    (q "{'request':{'Body':'hello123world','Method':'POST'},'static_data':{'search_characters':'123456789'}}"))
  = Some (3, u "123456789").
Proof. vm_compute. reflexivity. Qed.

(** ** [serde_json::to_string] and [to_vec]: the JSON text of a value *)

(** Lowercase hexadecimal digit, the [HEX] table of serde_json. *)
Definition hex_digit (n : Z) : Z := if n <? 10 then 48 + n else 87 + n.

(** The [ESCAPE] table of [format_escaped_str_contents]: quote and
    backslash, the five short control escapes, [\u00XX] for the other
    control chars; every other scalar is written as it is (its UTF-8
    bytes are all above [0x7F] or unescaped). *)
Definition escape_char (c : Z) : rstring :=
  if c =? 34 then [92; 34]
  else if c =? 92 then [92; 92]
  else if c =? 8 then [92; 98]
  else if c =? 12 then [92; 102]
  else if c =? 10 then [92; 110]
  else if c =? 13 then [92; 114]
  else if c =? 9 then [92; 116]
  else if (0 <=? c) && (c <? 32) then [92; 117; 48; 48; hex_digit (c / 16); hex_digit (c mod 16)]
  else [c].

(** [format_escaped_str]. *)
Definition escape_str (s : rstring) : rstring := 34 :: flat_map escape_char s ++ [34].

(** The decimal digits of [n >= 0] ([itoa]); [fuel] exceeds their number. *)
Fixpoint digits_of (fuel : nat) (n : Z) : rstring :=
  match fuel with
  | O => []
  | S f => if n <? 10 then [48 + n] else digits_of f (n / 10) ++ [48 + n mod 10]
  end.

(** An integer as serde_json writes it: a minus sign, then the digits. *)
Definition itoa (z : Z) : rstring :=
  let n := Z.abs z in
  let ds := digits_of (S (Z.to_nat (Z.log2 n))) n in
  if z <? 0 then 45 :: ds else ds.

(** The separators written by [begin_array_value] and
    [begin_object_key]: a comma before every element but the first. *)
Fixpoint join_comma (xs : list rstring) : rstring :=
  match xs with
  | [] => []
  | [x] => x
  | x :: r => x ++ 44 :: join_comma r
  end.

(** [Serialize for Value] with the [CompactFormatter]; a [Number] is
    written from its text. *)
Fixpoint to_json (v : json) : rstring :=
  match v with
  | JNull => u "null"
  | JBool true => u "true"
  | JBool false => u "false"
  | JNumber raw => raw
  | JString s => escape_str s
  | JArray l => 91 :: join_comma (map to_json l) ++ [93]
  | JObject m => 123 :: join_comma (map (fun '(k, x) => escape_str k ++ 58 :: to_json x) m) ++ [125]
  end.

(** The value of the digits of an integer literal. *)
Definition digits_value (ds : rstring) : Z :=
  fold_left (fun acc d => acc * 10 + (d - 48)) ds 0.

(** The value of an integer literal [-?[0-9]+]. *)
Definition int_value (raw : rstring) : Z :=
  match raw with
  | c :: r => if c =? 45 then - digits_value r else digits_value raw
  | [] => 0
  end.

(** [raw] is the text serde_json writes for an integer. *)
Definition is_itoa (raw : rstring) : bool := rstring_eqb raw (itoa (int_value raw)).

(** Values serde_json can write and read back: strings of scalars
    (never negative) and integer numbers. *)
Fixpoint wf_json (v : json) : bool :=
  match v with
  | JNumber raw => is_itoa raw
  | JString s => forallb (Z.leb 0) s
  | JArray l => forallb wf_json l
  | JObject m => forallb (fun '(k, x) => forallb (Z.leb 0) k && wf_json x) m
  | _ => true
  end.

(** ** UTF-8 *)

(** [char::encode_utf8] ([encode_utf8_raw]). *)
Definition utf8_encode_char (code : Z) : list Z :=
  if code <? 128 then [code]
  else if code <? 2048 then
    [Z.lor (Z.land (Z.shiftr code 6) 31) 192; Z.lor (Z.land code 63) 128]
  else if code <? 65536 then
    [Z.lor (Z.land (Z.shiftr code 12) 15) 224; Z.lor (Z.land (Z.shiftr code 6) 63) 128;
     Z.lor (Z.land code 63) 128]
  else
    [Z.lor (Z.land (Z.shiftr code 18) 7) 240; Z.lor (Z.land (Z.shiftr code 12) 63) 128;
     Z.lor (Z.land (Z.shiftr code 6) 63) 128; Z.lor (Z.land code 63) 128].

(** The bytes of a [String]. *)
Definition utf8_encode (s : rstring) : list Z := flat_map utf8_encode_char s.

(** A Unicode scalar value, what a Rust [char] holds. *)
Definition is_scalar (c : Z) : bool :=
  (0 <=? c) && (c <=? 1114111) && negb ((55296 <=? c) && (c <=? 57343)).

Definition utf8_cont (b : Z) : bool := (128 <=? b) && (b <=? 191).

(** [String::from_utf8] ([run_utf8_validation]): the bytes (each in
    [0..255]) must be well-formed UTF-8; the scalars they encode. *)
Fixpoint from_utf8 (bs : list Z) : option rstring :=
  match bs with
  | [] => Some []
  | b0 :: r =>
      if b0 <? 128 then option_map (cons b0) (from_utf8 r)
      else if (194 <=? b0) && (b0 <=? 223) then
        match r with
        | b1 :: r1 =>
            if utf8_cont b1
            then option_map (cons ((b0 - 192) * 64 + (b1 - 128))) (from_utf8 r1)
            else None
        | [] => None
        end
      else if (224 <=? b0) && (b0 <=? 239) then
        match r with
        | b1 :: b2 :: r2 =>
            if (if b0 =? 224 then (160 <=? b1) && (b1 <=? 191)
                else if b0 =? 237 then (128 <=? b1) && (b1 <=? 159)
                else utf8_cont b1) && utf8_cont b2
            then option_map (cons (((b0 - 224) * 64 + (b1 - 128)) * 64 + (b2 - 128)))
                   (from_utf8 r2)
            else None
        | _ => None
        end
      else if (240 <=? b0) && (b0 <=? 244) then
        match r with
        | b1 :: b2 :: b3 :: r3 =>
            if (if b0 =? 240 then (144 <=? b1) && (b1 <=? 191)
                else if b0 =? 244 then (128 <=? b1) && (b1 <=? 143)
                else utf8_cont b1) && utf8_cont b2 && utf8_cont b3
            then option_map
                   (cons ((((b0 - 240) * 64 + (b1 - 128)) * 64 + (b2 - 128)) * 64 + (b3 - 128)))
                   (from_utf8 r3)
            else None
        | _ => None
        end
      else None
  end.

(** ** The export of [pdk.rs] *)

(** [derive(Serialize)] of [types::CharacterReport]: the fields in
    order, under their [rename]d keys. *)
Definition report_json (r : CharacterReport) : json :=
  JObject [(u "count", JNumber (itoa (count r))); (u "characters", JString (characters r))].

(** What a call can fail with: the input bytes are not UTF-8
    ([extism_pdk::input::<String>()]) or [count_characters] fails. *)
Inductive ExportError :=
| InputNotUtf8
| CallError (e : PdkError).

(** What the host sees after a call: the output set by
    [extism_pdk::output] and the error set by [error_set]. *)
Record HostBuffers := {
  out_buf : option (list Z);
  err_buf : option ExportError
}.

(** [internal::return_error]: the error goes to [error_set], the
    status is [-1]. *)
Definition return_error (e : ExportError) : Z * HostBuffers :=
  (-1, {| out_buf := None; err_buf := Some e |}).

(** [exports::CountCharacters]: [try_input!()], [count_characters], then
    [extism_pdk::output(Json(x))], whose [serde_json::to_vec] cannot
    fail on this struct. *)
Definition CountCharacters `{UnicodeTables} (h : Hasher) (input : list Z) : Z * HostBuffers :=
  match from_utf8 input with
  | None => return_error InputNotUtf8
  | Some s =>
      match count_characters h s with
      | Err e => return_error (CallError e)
      | Ok x => (0, {| out_buf := Some (utf8_encode (to_json (report_json x))); err_buf := None |})
      end
  end.

(** [i32]: [deserialize_i32] on a number.  An integer literal in range
    is accepted; out of range serde reports [invalid_value], and a
    literal with a fraction or exponent is a float ([invalid_type]). *)
Definition de_i32 (v : json) : result Z DeError :=
  match v with
  | JNumber raw =>
      let ds := match raw with c :: r => if c =? 45 then r else raw | [] => raw end in
      if forallb is_digit ds then
        let n := int_value raw in
        if (- 2 ^ 31 <=? n) && (n <? 2 ^ 31) then Ok n else Err InvalidType
      else Err InvalidType
  | _ => Err InvalidType
  end.

(** [visit_map] of [derive(Deserialize)] for [CharacterReport]. *)
Fixpoint report_fields (ms : list (rstring * json)) (cnt : option Z) (chars : option rstring)
  : result (option Z * option rstring) DeError :=
  match ms with
  | [] => Ok (cnt, chars)
  | (k, v) :: r =>
      if rstring_eqb k (u "count") then
        match cnt with
        | Some _ => Err (DuplicateField "count")
        | None => let? x := de_i32 v in report_fields r (Some x) chars
        end
      else if rstring_eqb k (u "characters") then
        match chars with
        | Some _ => Err (DuplicateField "characters")
        | None => let? x := de_string v in report_fields r cnt (Some x)
        end
      else report_fields r cnt chars
  end.

Definition de_CharacterReport (v : json) : result CharacterReport DeError :=
  match v with
  | JObject ms =>
      let? (c, s) := report_fields ms None None in
      match c, s with
      | Some c, Some s => Ok {| count := c; characters := s |}
      | None, _ => Err (MissingField "count")
      | Some _, None => Err (MissingField "characters")
      end
  | JArray [] => Err (InvalidLength 0)
  | JArray [_] => Err (InvalidLength 1)
  | JArray (a :: b :: rest) =>
      let? c := de_i32 a in
      let? s := de_string b in
      end_seq rest {| count := c; characters := s |}
  | _ => Err InvalidType
  end.

(** [Json<CharacterReport>::from_bytes], as the tests read the output:
    [serde_json::from_slice], which refuses bytes that are not UTF-8. *)
Definition decode_report (bytes : list Z) : result CharacterReport DeError :=
  match from_utf8 bytes with
  | None => Err (Syntax "InvalidUnicodeCodePoint")
  | Some s => let? v := parse_json s in de_CharacterReport v
  end.

(** ** The input builder of the plugin's tests ([test/src/lib.rs]) *)

(** [String] ordering: lexicographic on the bytes, which for UTF-8 is
    lexicographic on the scalars. *)
Fixpoint rstring_ltb (a b : rstring) : bool :=
  match a, b with
  | [], [] => false
  | [], _ :: _ => true
  | _ :: _, [] => false
  | x :: a', y :: b' => (x <? y) || ((x =? y) && rstring_ltb a' b')
  end.

(** [serde_json::Map] without the [preserve_order] feature is a
    [BTreeMap]: [insert] keeps the members sorted by key. *)
Fixpoint map_insert (k : rstring) (v : json) (m : list (rstring * json)) : list (rstring * json) :=
  match m with
  | [] => [(k, v)]
  | (k', v') :: r =>
      if rstring_eqb k k' then (k, v) :: r
      else if rstring_ltb k k' then (k, v) :: m
      else (k', v') :: map_insert k v r
  end.

(** [json!({ k1: v1, k2: v2, ... })]: a map filled by [insert]. *)
Definition map_of (kvs : list (rstring * json)) : list (rstring * json) :=
  fold_left (fun m kv => map_insert (fst kv) (snd kv) m) kvs [].

(** [create_test_input_with_config], lines 17-58, up to the final
    [to_string]; [ContentLength] is [body.len()], the UTF-8 length. *)
Definition test_input_value (b : rstring) (search_chars : option rstring)
  (case_sens : option bool) : json :=
  let request := JObject (map_of [
    (u "Body", JString b);
    (u "Headers", JObject (map_of [
       (u "Content-Type", JArray [JString (u "application/json")]);
       (u "User-Agent", JArray [JString (u "xtp-test/1.0")])]));
    (u "QueryParams", JObject (map_of []));
    (u "Method", JString (u "POST"));
    (u "Proto", JString (u "HTTP/1.1"));
    (u "Host", JString (u "localhost:8080"));
    (u "RemoteAddr", JString (u "[::1]:12345"));
    (u "ContentLength", JNumber (itoa (Z.of_nat (length (utf8_encode b)))));
    (u "URL", JObject (map_of [
       (u "Scheme", JString (u "http"));
       (u "Path", JString (u "/api/demo"));
       (u "Host", JString (u "localhost:8080"));
       (u "RawQuery", JString []);
       (u "Fragment", JString [])]));
    (u "URL_Path", JString (u "/api/demo"));
    (u "URL_Scheme", JString (u "http"));
    (u "URL_Host", JString (u "localhost:8080"));
    (u "URL_String", JString (u "/api/demo"))]) in
  let input := map_of [(u "request", request)] in
  let input :=
    match search_chars, case_sens with
    | None, None => input
    | _, _ =>
        let sd := map_of [] in
        let sd := match search_chars with
                  | Some chars => map_insert (u "search_characters") (JString chars) sd
                  | None => sd
                  end in
        let sd := match case_sens with
                  | Some cs => map_insert (u "case_sensitive") (JBool cs) sd
                  | None => sd
                  end in
        map_insert (u "static_data") (JObject sd) input
    end in
  JObject input.

(** [create_test_input_with_config]. *)
Definition create_test_input_with_config (b : rstring) (search_chars : option rstring)
  (case_sens : option bool) : rstring :=
  to_json (test_input_value b search_chars case_sens).

(** ** Notions used by the proofs *)

(** What may follow a value inside a JSON text: the end, a comma, or
    the closing bracket or brace. *)
Definition stop (rest : rstring) : bool :=
  match rest with [] => true | c :: _ => (c =? 44) || (c =? 93) || (c =? 125) end.

(** A bound on the calls [parse_value] makes on the text of a value. *)
Fixpoint jsize (v : json) : nat :=
  match v with
  | JArray l => S (list_sum (map (fun x => S (jsize x)) l))
  | JObject m => S (list_sum (map (fun '(_, x) => S (jsize x)) m))
  | _ => 1
  end.

Definition is_byte (b : Z) : bool := (0 <=? b) && (b <? 256).

Definition scalars (s : rstring) : bool := forallb is_scalar s.

Definition text_suffix (r s : rstring) : Prop := exists p, s = p ++ r.

(** Every text in a value (strings, keys, number literals) is made of
    Unicode scalars. *)
Fixpoint json_scalars (v : json) : bool :=
  match v with
  | JNumber raw => scalars raw
  | JString s => scalars s
  | JArray l => forallb json_scalars l
  | JObject m => forallb (fun '(k, x) => scalars k && json_scalars x) m
  | _ => true
  end.

Definition opt_scalars (o : option rstring) : Prop :=
  forall x, o = Some x -> scalars x = true.

Definition sd_scalars (o : option StaticData) : Prop :=
  forall sd, o = Some sd -> opt_scalars (search_characters sd).

Definition create_test_input (b : rstring) : rstring := create_test_input_with_config b None None.

Definition test_config (sc : option rstring) (cs : option bool) : option StaticData :=
  match sc, cs with
  | None, None => None
  | _, _ => Some {| search_characters := sc; case_sensitive := cs |}
  end.

(** ** Facts about the embedding *)

(** The number of scalars of [s] that occur in [t]. *)
Definition matches_in_set (t s : rstring) : nat :=
  length (List.filter (fun c => existsb (Z.eqb c) t) s).

Lemma existsb_eqb_In (x : Z) (t : rstring) : existsb (Z.eqb x) t = true <-> In x t.
Proof.
  induction t as [|a t IH]; simpl; [split; [discriminate | tauto]|].
  rewrite orb_true_iff, IH, Z.eqb_eq. split; intros [H|H]; auto.
Qed.

Lemma filter_length_le (f : Z -> bool) (l : rstring) :
  (length (List.filter f l) <= length l)%nat.
Proof. induction l as [|a l IH]; simpl; [lia|]. destruct (f a); simpl; lia. Qed.

Lemma filter_all (f : Z -> bool) (l : rstring) :
  (forall x, In x l -> f x = true) -> List.filter f l = l.
Proof.
  induction l as [|a l IH]; intros Hall; simpl; [reflexivity|].
  rewrite (Hall a (or_introl eq_refl)), IH; [reflexivity|].
  intros x Hx. apply Hall. right. exact Hx.
Qed.

Lemma as_i32_small (n : nat) : Z.of_nat n < 2 ^ 31 -> as_i32 n = Z.of_nat n.
Proof.
  intros Hn. unfold as_i32. rewrite Z.mod_small; [lia|]. split; [lia|].
  change (2 ^ 32) with (2 ^ 31 + 2 ^ 31). lia.
Qed.

(** *** The hash set answers membership, whatever the hasher *)
Section HashSetFacts.
Variable h : Hasher.

Lemma hs_contains_insert (y : Z) (s : HashSet) (x : Z) :
  hs_contains h (hs_insert h y s) x = (x =? y) || hs_contains h s x.
Proof.
  unfold hs_contains, hs_insert.
  destruct (decide (h x = h y)) as [Heq|Hne].
  - rewrite Heq. destruct (s !! h y) as [b|] eqn:E.
    + destruct (existsb (Z.eqb y) b) eqn:Ey.
      * rewrite E. destruct (Z.eqb_spec x y) as [->|]; [rewrite Ey|]; reflexivity.
      * rewrite lookup_insert_eq. reflexivity.
    + rewrite lookup_insert_eq. reflexivity.
  - assert (Hxy : (x =? y) = false) by (apply Z.eqb_neq; intros Hxy; subst y; contradiction).
    rewrite Hxy, orb_false_l.
    destruct (s !! h y) as [b|] eqn:E; [destruct (existsb (Z.eqb y) b)|];
      try reflexivity; rewrite lookup_insert_ne by congruence; reflexivity.
Qed.

Lemma hs_contains_fold (l : list Z) (s : HashSet) (x : Z) :
  hs_contains h (fold_left (fun s x => hs_insert h x s) l s) x
  = hs_contains h s x || existsb (Z.eqb x) l.
Proof.
  revert s. induction l as [|y l IH]; intros s; simpl.
  - rewrite orb_false_r. reflexivity.
  - rewrite IH, hs_contains_insert.
    destruct (hs_contains h s x), (x =? y), (existsb (Z.eqb x) l); reflexivity.
Qed.

Lemma hs_contains_collect (l : list Z) (x : Z) :
  hs_contains h (hs_collect h l) x = existsb (Z.eqb x) l.
Proof.
  unfold hs_collect. rewrite hs_contains_fold. unfold hs_contains.
  rewrite lookup_empty. reflexivity.
Qed.

Lemma count_matches_spec (s t : rstring) : count_matches h s t = matches_in_set t s.
Proof.
  unfold count_matches, matches_in_set. f_equal.
  induction s as [|c s IH]; simpl; [reflexivity|].
  rewrite hs_contains_collect, IH. reflexivity.
Qed.
End HashSetFacts.

(** *** Lowercasing *)
Section LowercaseFacts.
Context `{UnicodeTables}.

Lemma push_lower_nonempty (c : Z) : push_lower c <> [].
Proof.
  unfold push_lower. destruct (to_lower c) as [[a b] c'].
  destruct (b =? 0), (c' =? 0); discriminate.
Qed.

Lemma to_lowercase_from_length (before s : rstring) :
  (length s <= length (to_lowercase_from before s))%nat.
Proof.
  revert before. induction s as [|c s IH]; intros before; simpl; [lia|].
  rewrite length_app. specialize (IH (before ++ [c])).
  destruct (c =? CAPITAL_SIGMA); simpl; [lia|].
  pose proof (push_lower_nonempty c) as Hne.
  destruct (push_lower c); [contradiction|simpl; lia].
Qed.

(** Every scalar that [to_lower] gives a char of [m] other than the
    capital sigma shows up in the lowercased [m]. *)
Lemma push_lower_in_lowercase (m before : rstring) (c x : Z) :
  In c m -> c <> CAPITAL_SIGMA -> In x (push_lower c) ->
  In x (to_lowercase_from before m).
Proof.
  revert before. induction m as [|a m IH]; intros before Hc Hs Hx; [destruct Hc|].
  simpl. apply in_or_app. destruct Hc as [->|Hc].
  - left. rewrite (proj2 (Z.eqb_neq c CAPITAL_SIGMA) Hs). exact Hx.
  - right. apply IH; assumption.
Qed.

(** Lowercasing both sides keeps every match, unless the capital
    sigma occurs in both. *)
Lemma lowercase_keeps_matches (m before s : rstring) :
  ~ (In CAPITAL_SIGMA s /\ In CAPITAL_SIGMA m) ->
  (matches_in_set m s
   <= matches_in_set (to_lowercase m) (to_lowercase_from before s))%nat.
Proof.
  unfold matches_in_set.
  revert before. induction s as [|c s IH]; intros before Hsig; simpl; [lia|].
  rewrite List.filter_app, length_app.
  assert (IH' := IH (before ++ [c])).
  assert (Hsig' : ~ (In CAPITAL_SIGMA s /\ In CAPITAL_SIGMA m))
    by (intros [H1 H2]; apply Hsig; split; [right|]; assumption).
  specialize (IH' Hsig').
  destruct (existsb (Z.eqb c) m) eqn:Ec; simpl; [|lia].
  apply existsb_eqb_In in Ec.
  assert (Hc : c <> CAPITAL_SIGMA)
    by (intros ->; apply Hsig; split; [left; reflexivity | exact Ec]).
  rewrite (proj2 (Z.eqb_neq c CAPITAL_SIGMA) Hc).
  rewrite (filter_all _ (push_lower c)).
  - pose proof (push_lower_nonempty c) as Hne.
    destruct (push_lower c); [contradiction|simpl; lia].
  - intros x Hx. apply existsb_eqb_In.
    apply (push_lower_in_lowercase m [] c x Ec Hc Hx).
Qed.
End LowercaseFacts.

(** *** The computation after decoding *)
Section ProgramFacts.
Context `{UnicodeTables}.

Lemma count_characters_via_decode (h : Hasher) (input : rstring) :
  count_characters h input =
  match decode_input input with
  | Err e => Err (InvalidJsonInput e)
  | Ok d => count_characters_data h d
  end.
Proof.
  unfold count_characters, decode_input, count_characters_json.
  destruct (parse_json input); reflexivity.
Qed.

Lemma count_characters_data_ok (h : Hasher) (d : InputData) (rep : CharacterReport) :
  count_characters_data h d = Ok rep <->
  matching_chars d <> [] /\
  rep = {| count := as_i32 (matches_in_set (target_chars_of d) (search_text_of d));
           characters := matching_chars d |}.
Proof.
  unfold count_characters_data. rewrite count_matches_spec.
  destruct (matching_chars d) as [|c cs]; split.
  - discriminate.
  - intros [Hne _]. contradiction.
  - intros Hok. injection Hok as <-. split; [discriminate | reflexivity].
  - intros [_ ->]. reflexivity.
Qed.

Lemma count_characters_data_err (h : Hasher) (d : InputData) (e : PdkError) :
  count_characters_data h d = Err e <-> matching_chars d = [] /\ e = CharacterSetEmpty.
Proof.
  unfold count_characters_data.
  destruct (matching_chars d) as [|c cs]; split.
  - intros Herr. injection Herr as <-. split; reflexivity.
  - intros [_ ->]. reflexivity.
  - discriminate.
  - intros [Hc _]. discriminate.
Qed.

Lemma count_characters_data_hasher (h1 h2 : Hasher) (d : InputData) :
  count_characters_data h1 d = count_characters_data h2 d.
Proof.
  unfold count_characters_data. rewrite !count_matches_spec. reflexivity.
Qed.

Lemma count_characters_any_hasher (h1 h2 : Hasher) (input : rstring) :
  count_characters h1 input = count_characters h2 input.
Proof.
  rewrite !count_characters_via_decode.
  destruct (decode_input input); [apply count_characters_data_hasher | reflexivity].
Qed.
End ProgramFacts.

Lemma matches_in_set_ext (t1 t2 s : rstring) :
  (forall x, In x t1 <-> In x t2) -> matches_in_set t1 s = matches_in_set t2 s.
Proof.
  intros Hset. unfold matches_in_set. f_equal.
  induction s as [|c s IH]; simpl; [reflexivity|].
  destruct (existsb (Z.eqb c) t1) eqn:E1, (existsb (Z.eqb c) t2) eqn:E2;
    rewrite ?IH; try reflexivity.
  - apply existsb_eqb_In, Hset, existsb_eqb_In in E1. congruence.
  - apply existsb_eqb_In, Hset, existsb_eqb_In in E2. congruence.
Qed.

(** ** Inputs used by the claims *)

(** The JSON text the plugin's tests send, with a body, a
    [search_characters] string and a [case_sensitive] literal. *)
Definition input_with (b sc : rstring) (cs : string) : rstring :=
  q "{'request':{'Body':'" ++ b ++ q "'},'static_data':{'search_characters':'" ++ sc
  ++ q "','case_sensitive':" ++ u cs ++ q "}}".

(** A decoded input with an explicit match set and case policy. *)
Definition config_input (b m : rstring) (cs : bool) : InputData :=
  {| request := {| body := b |};
     static_data := Some {| search_characters := Some m; case_sensitive := Some cs |} |}.

(** U+0130 as body and as match set, case-insensitive by default. *)
Definition dotted_I_input : rstring := input_with [304] [304] "null".
Definition dotted_I_data : InputData :=
  {| request := {| body := [304] |};
     static_data := Some {| search_characters := Some [304]; case_sensitive := None |} |}.
Definition dotted_I_report : CharacterReport := {| count := 2; characters := [304] |}.

(** ["café"] with U+00E9 and the match set ["é"], case-sensitive. *)
Definition cafe_data : InputData := config_input (u "caf" ++ [233]) [233] true.

(** ** C1: the count and the length of the body *)

(** C1 (counterexample): the body ["İ"] (U+0130, one scalar) with the
    match set ["İ"] gets the count 2, as [to_lowercase] turns it into
    ['i'] and U+0307. *)
Lemma count_exceeds_body_length :
  decode_input dotted_I_input = Ok dotted_I_data
  /\ length (body (request dotted_I_data)) = 1%nat
  /\ count_characters h7 dotted_I_input = Ok dotted_I_report.
Proof. split; [|split]; vm_compute; reflexivity. Qed.

(** C1 (amended): the count of a successful call is the number [n] of
    matching scalars of the normalized body (the body itself when
    case-sensitive, its [to_lowercase] otherwise) read as an [i32], with
    [n] at most the length of that normalized body; when that length is
    below 2^31, [0 <= count <= length]. *)
Theorem count_bounded_by_normalized_body `{UnicodeTables} (h : Hasher)
  (input : rstring) (d : InputData) (rep : CharacterReport) :
  decode_input input = Ok d ->
  count_characters h input = Ok rep ->
  (exists n : nat, count rep = as_i32 n /\ (n <= length (search_text_of d))%nat)
  /\ (Z.of_nat (length (search_text_of d)) < 2 ^ 31 ->
      0 <= count rep <= Z.of_nat (length (search_text_of d)))
  /\ (case_sensitive_of d = true -> search_text_of d = body (request d)).
Proof.
  intros Hd Hc. rewrite count_characters_via_decode, Hd in Hc.
  apply count_characters_data_ok in Hc as [_ ->]. simpl.
  pose proof (filter_length_le (fun c => existsb (Z.eqb c) (target_chars_of d))
                (search_text_of d)) as Hle.
  split; [|split].
  - eexists. split; [reflexivity | exact Hle].
  - intros Hlen. unfold matches_in_set in *. rewrite as_i32_small by lia. lia.
  - intros Hcs. unfold search_text_of. rewrite Hcs. reflexivity.
Qed.

Lemma count_bounded_by_normalized_body_witness :
  decode_input dotted_I_input = Ok dotted_I_data
  /\ count_characters h7 dotted_I_input = Ok dotted_I_report
  /\ Z.of_nat (length (search_text_of dotted_I_data)) < 2 ^ 31
  /\ 0 <= count dotted_I_report <= Z.of_nat (length (search_text_of dotted_I_data)).
Proof.
  assert (Hd : decode_input dotted_I_input = Ok dotted_I_data) by (vm_compute; reflexivity).
  assert (Hc : count_characters h7 dotted_I_input = Ok dotted_I_report)
    by (vm_compute; reflexivity).
  assert (Hl : Z.of_nat (length (search_text_of dotted_I_data)) < 2 ^ 31)
    by (vm_compute; reflexivity).
  split; [exact Hd|split; [exact Hc|split; [exact Hl|]]].
  exact (proj1 (proj2 (count_bounded_by_normalized_body h7 dotted_I_input
                         dotted_I_data dotted_I_report Hd Hc)) Hl).
Defined.

(** ** C3: case folding and the count *)

(** C3 (counterexample): body ["AΣ"], match set ["Σ"]: one match when
    case-sensitive, none when not, as the final sigma of the body
    lowercases to ς while the lone Σ of the match set lowercases to σ. *)
Lemma case_folding_loses_final_sigma :
  count_characters h7 (input_with [65; 931] [931] "true")
    = Ok {| count := 1; characters := [931] |}
  /\ count_characters h7 (input_with [65; 931] [931] "false")
    = Ok {| count := 0; characters := [931] |}.
Proof. split; vm_compute; reflexivity. Qed.

(** C3 (amended): unless U+03A3 occurs both in the body and in the
    match set, the case-insensitive count is at least the case-sensitive
    one (for bodies whose lowercase form is shorter than 2^31). *)
Theorem case_insensitive_count_ge `{UnicodeTables} (h : Hasher)
  (b m : rstring) (r1 r2 : CharacterReport) :
  ~ (In CAPITAL_SIGMA b /\ In CAPITAL_SIGMA m) ->
  Z.of_nat (length (to_lowercase b)) < 2 ^ 31 ->
  count_characters_data h (config_input b m true) = Ok r1 ->
  count_characters_data h (config_input b m false) = Ok r2 ->
  count r1 <= count r2.
Proof.
  intros Hsig Hlen H1 H2.
  apply count_characters_data_ok in H1 as [_ ->].
  apply count_characters_data_ok in H2 as [_ ->]. simpl.
  unfold search_text_of, target_chars_of, matching_chars, case_sensitive_of; simpl.
  pose proof (lowercase_keeps_matches m [] b Hsig) as Hmono.
  pose proof (to_lowercase_from_length [] b) as Hlb.
  pose proof (filter_length_le (fun c => existsb (Z.eqb c) (to_lowercase m))
                (to_lowercase b)) as Hl2.
  unfold to_lowercase, matches_in_set in *.
  rewrite !as_i32_small by lia. lia.
Qed.

Lemma case_insensitive_count_ge_witness :
  count_characters_data h7 (config_input (u "Hello WORLD") (u "elo") true)
    = Ok {| count := 4; characters := u "elo" |}
  /\ count_characters_data h7 (config_input (u "Hello WORLD") (u "elo") false)
    = Ok {| count := 6; characters := u "elo" |}
  /\ 4 <= 6.
Proof.
  assert (H1 : count_characters_data h7 (config_input (u "Hello WORLD") (u "elo") true)
                 = Ok {| count := 4; characters := u "elo" |}) by (vm_compute; reflexivity).
  assert (H2 : count_characters_data h7 (config_input (u "Hello WORLD") (u "elo") false)
                 = Ok {| count := 6; characters := u "elo" |}) by (vm_compute; reflexivity).
  split; [exact H1|split; [exact H2|]].
  assert (Hs : ~ (In CAPITAL_SIGMA (u "Hello WORLD") /\ In CAPITAL_SIGMA (u "elo"))).
  { vm_compute. intros [Hb _]. repeat (destruct Hb as [Hb|Hb]; [discriminate|]). exact Hb. }
  assert (Hl : Z.of_nat (length (to_lowercase (u "Hello WORLD"))) < 2 ^ 31)
    by (vm_compute; reflexivity).
  exact (case_insensitive_count_ge h7 (u "Hello WORLD") (u "elo")
           {| count := 4; characters := u "elo" |} {| count := 6; characters := u "elo" |}
           Hs Hl H1 H2).
Defined.

(** ** C7: the case-sensitivity scenarios *)

(** C7: ["Hello WORLD"] with the match set ["elo"] counts 4 when
    case-sensitive and 6 when not, whatever the hasher. *)
Theorem hello_world_elo_counts (h : Hasher) :
  count_characters h (input_with (u "Hello WORLD") (u "elo") "true")
    = Ok {| count := 4; characters := u "elo" |}
  /\ count_characters h (input_with (u "Hello WORLD") (u "elo") "false")
    = Ok {| count := 6; characters := u "elo" |}.
Proof.
  rewrite !(count_characters_any_hasher h h7).
  split; vm_compute; reflexivity.
Qed.

(** ** C8: what one unit of counting is *)

(** C8 (counterexample): case-insensitively, against the body ["σ"] the
    match set ["AΣ"] counts 0 but ["AΣΣ"] counts 1 (the repeated Σ is no
    longer word-final, so it lowercases to σ); and the body ["İ"] (one
    scalar, two bytes) counts as two units against ["İ"]. *)
Lemma repeated_sigma_changes_count :
  count_characters h7 (input_with [963] [65; 931] "false")
    = Ok {| count := 0; characters := [65; 931] |}
  /\ count_characters h7 (input_with [963] [65; 931; 931] "false")
    = Ok {| count := 1; characters := [65; 931; 931] |}
  /\ count_characters h7 (input_with [304] [304] "false")
    = Ok {| count := 2; characters := [304] |}.
Proof. split; [|split]; vm_compute; reflexivity. Qed.

(** C8 (amended): the count is the number of scalars of the normalized
    body that belong to the set of scalars of the normalized match set:
    each scalar of the normalized body is one unit, and match sets whose
    normalized forms have the same scalars give the same count.  When
    case-sensitive nothing is normalized. *)
Theorem count_is_scalar_membership `{UnicodeTables} (h : Hasher)
  (d : InputData) (rep : CharacterReport) :
  count_characters_data h d = Ok rep ->
  count rep = as_i32 (matches_in_set (target_chars_of d) (search_text_of d))
  /\ (case_sensitive_of d = true ->
      search_text_of d = body (request d) /\ target_chars_of d = matching_chars d)
  /\ (forall (d' : InputData) (rep' : CharacterReport),
        request d' = request d ->
        case_sensitive_of d' = case_sensitive_of d ->
        (forall x, In x (target_chars_of d') <-> In x (target_chars_of d)) ->
        count_characters_data h d' = Ok rep' ->
        count rep' = count rep).
Proof.
  intros Hok. apply count_characters_data_ok in Hok as [_ ->]. simpl.
  split; [reflexivity|split].
  - intros Hcs. unfold search_text_of, target_chars_of. rewrite Hcs. split; reflexivity.
  - intros d' rep' Hreq Hcs Hset Hok'.
    apply count_characters_data_ok in Hok' as [_ ->]. simpl. f_equal.
    unfold search_text_of. rewrite Hreq, Hcs. apply matches_in_set_ext. exact Hset.
Qed.

Lemma count_is_scalar_membership_witness :
  count_characters_data h7 cafe_data = Ok {| count := 1; characters := [233] |}
  /\ count {| count := 1; characters := [233] |}
     = as_i32 (matches_in_set (target_chars_of cafe_data) (search_text_of cafe_data)).
Proof.
  assert (Hc : count_characters_data h7 cafe_data = Ok {| count := 1; characters := [233] |})
    by (vm_compute; reflexivity).
  split; [exact Hc|].
  exact (proj1 (count_is_scalar_membership h7 cafe_data _ Hc)).
Defined.

(** ** C9: determinism *)

(** C9: the result of [count_characters] does not depend on the keys of
    the [RandomState] drawn for its [HashSet]: two calls on the same input
    return the same report or the same error. *)
Theorem count_characters_deterministic `{UnicodeTables} (h1 h2 : Hasher) (input : rstring) :
  count_characters h1 input = count_characters h2 input.
Proof.
  rewrite !count_characters_via_decode.
  destruct (decode_input input) as [d|e]; [|reflexivity].
  unfold count_characters_data. rewrite !count_matches_spec. reflexivity.
Qed.

(** *** Field loops of the derived visitors *)

(** [k] is a key of the object members [ms]. *)
Definition has_key (k : rstring) (ms : list (rstring * json)) : bool :=
  existsb (fun kv => rstring_eqb (fst kv) k) ms.

Lemma rstring_eqb_refl (k : rstring) : rstring_eqb k k = true.
Proof. induction k as [|x k IH]; simpl; [reflexivity|]. rewrite Z.eqb_refl. exact IH. Qed.

Lemma has_key_app (k : rstring) (ms1 ms2 : list (rstring * json)) :
  has_key k (ms1 ++ ms2) = has_key k ms1 || has_key k ms2.
Proof. unfold has_key. apply existsb_app. Qed.

Lemma input_fields_app (ms1 ms2 : list (rstring * json)) rq sd :
  input_fields (ms1 ++ ms2) rq sd
  = let? (rq', sd') := input_fields ms1 rq sd in input_fields ms2 rq' sd'.
Proof.
  revert rq sd. induction ms1 as [|[k v] ms1 IH]; intros rq sd; [reflexivity|].
  cbn [app input_fields].
  destruct (rstring_eqb k (u "request")).
  - destruct rq; [reflexivity|]. destruct (de_RequestData v); [apply IH|reflexivity].
  - destruct (rstring_eqb k (u "static_data")); [|apply IH].
    destruct sd; [reflexivity|]. destruct (de_option de_StaticData v); [apply IH|reflexivity].
Qed.

(** Without a [static_data] key, the loop leaves that field as it is. *)
Lemma input_fields_skip (ms : list (rstring * json)) rq sd :
  has_key (u "static_data") ms = false ->
  input_fields ms rq sd
  = let? (rq', _) := input_fields ms rq None in Ok (rq', sd).
Proof.
  revert rq. induction ms as [|[k v] ms IH]; intros rq Hk; [reflexivity|].
  unfold has_key in Hk. cbn [existsb fst] in Hk. apply orb_false_elim in Hk as [Hk1 Hk2].
  cbn [input_fields].
  destruct (rstring_eqb k (u "request")).
  - destruct rq; [reflexivity|]. destruct (de_RequestData v); [apply IH, Hk2|reflexivity].
  - rewrite Hk1. apply IH, Hk2.
Qed.

Lemma static_fields_app (ms1 ms2 : list (rstring * json)) sc cs :
  static_fields (ms1 ++ ms2) sc cs
  = let? (sc', cs') := static_fields ms1 sc cs in static_fields ms2 sc' cs'.
Proof.
  revert sc cs. induction ms1 as [|[k v] ms1 IH]; intros sc cs; [reflexivity|].
  cbn [app static_fields].
  destruct (rstring_eqb k (u "search_characters")).
  - destruct sc; [reflexivity|]. destruct (de_option de_string v); [apply IH|reflexivity].
  - destruct (rstring_eqb k (u "case_sensitive")); [|apply IH].
    destruct cs; [reflexivity|]. destruct (de_option de_bool v); [apply IH|reflexivity].
Qed.

Lemma static_fields_skip_sc (ms : list (rstring * json)) sc cs :
  has_key (u "search_characters") ms = false ->
  static_fields ms sc cs
  = let? (_, cs') := static_fields ms None cs in Ok (sc, cs').
Proof.
  revert cs. induction ms as [|[k v] ms IH]; intros cs Hk; [reflexivity|].
  unfold has_key in Hk. cbn [existsb fst] in Hk. apply orb_false_elim in Hk as [Hk1 Hk2].
  cbn [static_fields]. rewrite Hk1.
  destruct (rstring_eqb k (u "case_sensitive")); [|apply IH, Hk2].
  destruct cs; [reflexivity|]. destruct (de_option de_bool v); [apply IH, Hk2|reflexivity].
Qed.

Lemma static_fields_skip_cs (ms : list (rstring * json)) sc cs :
  has_key (u "case_sensitive") ms = false ->
  static_fields ms sc cs
  = let? (sc', _) := static_fields ms sc None in Ok (sc', cs).
Proof.
  revert sc. induction ms as [|[k v] ms IH]; intros sc Hk; [reflexivity|].
  unfold has_key in Hk. cbn [existsb fst] in Hk. apply orb_false_elim in Hk as [Hk1 Hk2].
  cbn [static_fields]. rewrite Hk1.
  destruct (rstring_eqb k (u "search_characters")); [|apply IH, Hk2].
  destruct sc; [reflexivity|]. destruct (de_option de_string v); [apply IH, Hk2|reflexivity].
Qed.

(** [static_data: null] decodes as a missing [static_data]. *)
Lemma de_input_null_static_data (top1 top2 : list (rstring * json)) :
  has_key (u "static_data") (top1 ++ top2) = false ->
  de_InputData (JObject (top1 ++ (u "static_data", JNull) :: top2))
  = de_InputData (JObject (top1 ++ top2)).
Proof.
  intros Hk. rewrite has_key_app in Hk. apply orb_false_elim in Hk as [Hk1 Hk2].
  unfold de_InputData. rewrite !input_fields_app.
  destruct (input_fields top1 None None) as [[rq1 sd1]|e] eqn:E1; [|reflexivity].
  pose proof (input_fields_skip top1 None None Hk1) as S1.
  rewrite E1 in S1. cbn in S1. injection S1 as ->.
  cbn [res_bind input_fields].
  change (rstring_eqb (u "static_data") (u "request")) with false.
  rewrite rstring_eqb_refl. cbn [de_option res_bind].
  rewrite (input_fields_skip top2 rq1 (Some None) Hk2).
  destruct (input_fields top2 rq1 None) as [[rq2 sd2]|e] eqn:E2; [|reflexivity].
  pose proof (input_fields_skip top2 rq1 None Hk2) as S2.
  rewrite E2 in S2. cbn in S2. injection S2 as ->.
  reflexivity.
Qed.

(** [search_characters: null] decodes as a missing [search_characters]. *)
Lemma de_static_null_search_characters (ms1 ms2 : list (rstring * json)) :
  has_key (u "search_characters") (ms1 ++ ms2) = false ->
  de_StaticData (JObject (ms1 ++ (u "search_characters", JNull) :: ms2))
  = de_StaticData (JObject (ms1 ++ ms2)).
Proof.
  intros Hk. rewrite has_key_app in Hk. apply orb_false_elim in Hk as [Hk1 Hk2].
  unfold de_StaticData. rewrite !static_fields_app.
  destruct (static_fields ms1 None None) as [[sc1 cs1]|e] eqn:E1; [|reflexivity].
  pose proof (static_fields_skip_sc ms1 None None Hk1) as S1.
  rewrite E1 in S1. cbn in S1. injection S1 as ->.
  cbn [res_bind static_fields]. rewrite rstring_eqb_refl. cbn [de_option res_bind].
  rewrite (static_fields_skip_sc ms2 (Some None) cs1 Hk2).
  destruct (static_fields ms2 None cs1) as [[sc2 cs2]|e] eqn:E2; [|reflexivity].
  pose proof (static_fields_skip_sc ms2 None cs1 Hk2) as S2.
  rewrite E2 in S2. cbn in S2. injection S2 as ->.
  reflexivity.
Qed.

(** [case_sensitive: null] decodes as a missing [case_sensitive]. *)
Lemma de_static_null_case_sensitive (ms1 ms2 : list (rstring * json)) :
  has_key (u "case_sensitive") (ms1 ++ ms2) = false ->
  de_StaticData (JObject (ms1 ++ (u "case_sensitive", JNull) :: ms2))
  = de_StaticData (JObject (ms1 ++ ms2)).
Proof.
  intros Hk. rewrite has_key_app in Hk. apply orb_false_elim in Hk as [Hk1 Hk2].
  unfold de_StaticData. rewrite !static_fields_app.
  destruct (static_fields ms1 None None) as [[sc1 cs1]|e] eqn:E1; [|reflexivity].
  pose proof (static_fields_skip_cs ms1 None None Hk1) as S1.
  rewrite E1 in S1. cbn in S1. injection S1 as ->.
  cbn [res_bind static_fields].
  change (rstring_eqb (u "case_sensitive") (u "search_characters")) with false.
  rewrite rstring_eqb_refl. cbn [de_option res_bind].
  rewrite (static_fields_skip_cs ms2 sc1 (Some None) Hk2).
  destruct (static_fields ms2 sc1 None) as [[sc2 cs2]|e] eqn:E2; [|reflexivity].
  pose proof (static_fields_skip_cs ms2 sc1 None Hk2) as S2.
  rewrite E2 in S2. cbn in S2. injection S2 as ->.
  reflexivity.
Qed.

(** Two [static_data] objects that decode alike give the same input. *)
Lemma de_input_static_congr (top1 top2 a b : list (rstring * json)) :
  de_StaticData (JObject a) = de_StaticData (JObject b) ->
  de_InputData (JObject (top1 ++ (u "static_data", JObject a) :: top2))
  = de_InputData (JObject (top1 ++ (u "static_data", JObject b) :: top2)).
Proof.
  intros Hde. unfold de_InputData. rewrite !input_fields_app.
  destruct (input_fields top1 None None) as [[rq1 sd1]|e]; [|reflexivity].
  cbn [res_bind input_fields].
  change (rstring_eqb (u "static_data") (u "request")) with false.
  rewrite rstring_eqb_refl. destruct sd1; [reflexivity|].
  cbn [de_option]. rewrite Hde. reflexivity.
Qed.

(** *** Resolution of the match set *)

Lemma matching_chars_absent (d : InputData) :
  (forall sd, static_data d = Some sd -> search_characters sd = None) ->
  matching_chars d = default_vowels.
Proof.
  intros Hn. unfold matching_chars.
  destruct (static_data d) as [sd|]; [rewrite (Hn sd eq_refl)|]; reflexivity.
Qed.

Lemma matching_chars_given (d : InputData) (sd : StaticData) (s : rstring) :
  static_data d = Some sd -> search_characters sd = Some s -> matching_chars d = s.
Proof. intros Hsd Hs. unfold matching_chars. rewrite Hsd, Hs. reflexivity. Qed.

Lemma count_characters_data_some `{UnicodeTables} (h : Hasher) (d : InputData) :
  matching_chars d <> [] ->
  exists rep, count_characters_data h d = Ok rep /\ characters rep = matching_chars d.
Proof.
  intros Hne. eexists. split; [apply count_characters_data_ok; split; [exact Hne|reflexivity]|].
  reflexivity.
Qed.

Lemma default_vowels_nonempty : default_vowels <> [].
Proof. discriminate. Qed.

(** ** C2: the default match set *)

(** C2 (counterexample): a blank [search_characters] is not replaced by
    the vowels but used as it is, and an empty one is an error. *)
Lemma blank_match_set_used_verbatim :
  count_characters h7 (input_with (u "a b  c") (u "  ") "null")
    = Ok {| count := 3; characters := u "  " |}
  /\ count_characters h7 (input_with (u "abc") [] "null") = Err CharacterSetEmpty.
Proof. split; vm_compute; reflexivity. Qed.

(** C2 (amended): without [static_data] or without [search_characters]
    the match set is ["aeiouAEIOU"]; a supplied string is the match set
    as it is, without trimming: empty, it is rejected with the
    empty-match-set error, otherwise (blank included) it is counted with. *)
Theorem match_set_resolution `{UnicodeTables} (h : Hasher) (d : InputData) :
  ((forall sd, static_data d = Some sd -> search_characters sd = None) ->
     matching_chars d = default_vowels
     /\ exists rep, count_characters_data h d = Ok rep /\ characters rep = default_vowels)
  /\ (forall sd s, static_data d = Some sd -> search_characters sd = Some s ->
     matching_chars d = s
     /\ (s = [] -> count_characters_data h d = Err CharacterSetEmpty)
     /\ (s <> [] -> exists rep, count_characters_data h d = Ok rep /\ characters rep = s)).
Proof.
  split.
  - intros Hn. pose proof (matching_chars_absent d Hn) as Hm. split; [exact Hm|].
    rewrite <- Hm. apply count_characters_data_some. rewrite Hm. exact default_vowels_nonempty.
  - intros sd s Hsd Hs. pose proof (matching_chars_given d sd s Hsd Hs) as Hm.
    split; [exact Hm|split].
    + intros ->. apply count_characters_data_err. split; [exact Hm|reflexivity].
    + intros Hne. rewrite <- Hm. apply count_characters_data_some. rewrite Hm. exact Hne.
Qed.

Lemma match_set_resolution_witness :
  matching_chars (config_input (u "a b") (u "  ") false) = u "  "
  /\ (u "  " = [] -> count_characters_data h7 (config_input (u "a b") (u "  ") false)
                      = Err CharacterSetEmpty)
  /\ (u "  " <> [] -> exists rep, count_characters_data h7 (config_input (u "a b") (u "  ") false)
                                  = Ok rep /\ characters rep = u "  ").
Proof.
  exact (proj2 (match_set_resolution h7 (config_input (u "a b") (u "  ") false))
           {| search_characters := Some (u "  "); case_sensitive := Some false |} (u "  ")
           eq_refl eq_refl).
Defined.

(** ** C4: an explicit empty match set *)

(** C4: at the entry point, an explicitly empty [search_characters] is
    the empty-match-set error, and an absent one is the vowel set, never
    that error. *)
Theorem explicit_empty_match_set_rejected `{UnicodeTables} (h : Hasher)
  (input : rstring) (d : InputData) :
  decode_input input = Ok d ->
  (forall sd, static_data d = Some sd -> search_characters sd = Some [] ->
     count_characters h input = Err CharacterSetEmpty)
  /\ ((forall sd, static_data d = Some sd -> search_characters sd = None) ->
     exists rep, count_characters h input = Ok rep /\ characters rep = default_vowels).
Proof.
  intros Hd. rewrite count_characters_via_decode, Hd. split.
  - intros sd Hsd Hs. apply count_characters_data_err.
    split; [exact (matching_chars_given d sd [] Hsd Hs) | reflexivity].
  - intros Hn. pose proof (matching_chars_absent d Hn) as Hm.
    rewrite <- Hm. apply count_characters_data_some. rewrite Hm. exact default_vowels_nonempty.
Qed.

Lemma explicit_empty_match_set_rejected_witness :
  decode_input (input_with (u "abc") [] "true") = Ok (config_input (u "abc") [] true)
  /\ count_characters h7 (input_with (u "abc") [] "true") = Err CharacterSetEmpty.
Proof.
  assert (Hd : decode_input (input_with (u "abc") [] "true") = Ok (config_input (u "abc") [] true))
    by (vm_compute; reflexivity).
  split; [exact Hd|].
  exact (proj1 (explicit_empty_match_set_rejected h7 _ _ Hd)
           {| search_characters := Some []; case_sensitive := Some true |} eq_refl eq_refl).
Defined.

(** ** C5: when the entry point fails *)

(** The payload in serde's positional form [[["Hello World"],null]]. *)
Definition array_payload : rstring := q "[['Hello World'],null]".

(** C5 (counterexample): a JSON array, not the documented object, is
    decoded (serde's derived [visit_seq]) and gets a report. *)
Lemma array_payload_accepted :
  decode_input array_payload
    = Ok {| request := {| body := u "Hello World" |}; static_data := None |}
  /\ count_characters h7 array_payload = Ok {| count := 3; characters := default_vowels |}.
Proof. split; vm_compute; reflexivity. Qed.

(** C5 (amended): [count_characters] fails exactly when serde_json
    cannot decode the input into [InputData] (invalid-JSON error) or the
    resolved match set is empty (empty-match-set error); otherwise it
    returns a report.  Decoding also accepts the positional array form. *)
Theorem errors_exactly `{UnicodeTables} (h : Hasher) (input : rstring) (e : PdkError) :
  (count_characters h input = Err e <->
    (exists de, decode_input input = Err de /\ e = InvalidJsonInput de)
    \/ (exists d, decode_input input = Ok d /\ matching_chars d = [] /\ e = CharacterSetEmpty))
  /\ ((exists rep, count_characters h input = Ok rep) <->
      exists d, decode_input input = Ok d /\ matching_chars d <> [])
  /\ decode_input array_payload
       = Ok {| request := {| body := u "Hello World" |}; static_data := None |}.
Proof.
  split; [|split; [|vm_compute; reflexivity]];
    rewrite count_characters_via_decode; destruct (decode_input input) as [d|de].
  - rewrite count_characters_data_err. split.
    + intros [Hm ->]. right. exists d. auto.
    + intros [[de [Hde _]]|[d' [Hd' [Hm ->]]]]; [discriminate|].
      injection Hd' as <-. auto.
  - split.
    + intros Herr. injection Herr as <-. left. exists de. auto.
    + intros [[de' [Hde ->]]|[d [Hd _]]]; [injection Hde as ->; reflexivity|discriminate].
  - split.
    + intros [rep Hok]. apply count_characters_data_ok in Hok as [Hne _]. exists d. auto.
    + intros [d' [Hd' Hne]]. injection Hd' as <-.
      destruct (count_characters_data_some h d Hne) as [rep [Hok _]]. exists rep. exact Hok.
  - split.
    + intros [rep Hok]. discriminate.
    + intros [d [Hd _]]. discriminate.
Qed.

(** A text without [request.Body]. *)
Definition missing_body_payload : rstring := q "{'request':{'Method':'POST'}}".

Lemma errors_exactly_witness :
  count_characters h7 missing_body_payload = Err (InvalidJsonInput (MissingField "Body"))
  /\ ((exists de, decode_input missing_body_payload = Err de
                  /\ InvalidJsonInput (MissingField "Body") = InvalidJsonInput de)
      \/ (exists d, decode_input missing_body_payload = Ok d /\ matching_chars d = []
                    /\ InvalidJsonInput (MissingField "Body") = CharacterSetEmpty)).
Proof.
  assert (He : count_characters h7 missing_body_payload
               = Err (InvalidJsonInput (MissingField "Body"))) by (vm_compute; reflexivity).
  split; [exact He|].
  exact (proj1 (proj1 (errors_exactly h7 missing_body_payload _)) He).
Defined.

(** ** C6: the reported characters *)

(** C6: a report's [characters] is the match set exactly as resolved:
    the supplied [search_characters] string, or ["aeiouAEIOU"], with no
    case folding whatever the case policy. *)
Theorem report_echoes_match_set `{UnicodeTables} (h : Hasher)
  (input : rstring) (rep : CharacterReport) :
  count_characters h input = Ok rep ->
  exists d, decode_input input = Ok d
    /\ characters rep = matching_chars d
    /\ (forall sd s, static_data d = Some sd -> search_characters sd = Some s ->
          characters rep = s)
    /\ ((forall sd, static_data d = Some sd -> search_characters sd = None) ->
          characters rep = default_vowels).
Proof.
  intros Hc. rewrite count_characters_via_decode in Hc.
  destruct (decode_input input) as [d|e] eqn:Hd; [|discriminate].
  apply count_characters_data_ok in Hc as [_ ->]. exists d. cbn [characters].
  split; [reflexivity|split; [reflexivity|split]].
  - intros sd s Hsd Hs. exact (matching_chars_given d sd s Hsd Hs).
  - apply matching_chars_absent.
Qed.

Lemma report_echoes_match_set_witness :
  count_characters h7 (input_with (u "Hello WORLD") (u "ELO") "false")
    = Ok {| count := 6; characters := u "ELO" |}
  /\ exists d, decode_input (input_with (u "Hello WORLD") (u "ELO") "false") = Ok d
       /\ u "ELO" = matching_chars d
       /\ (forall sd s, static_data d = Some sd -> search_characters sd = Some s -> u "ELO" = s)
       /\ ((forall sd, static_data d = Some sd -> search_characters sd = None) ->
             u "ELO" = default_vowels).
Proof.
  assert (Hc : count_characters h7 (input_with (u "Hello WORLD") (u "ELO") "false")
               = Ok {| count := 6; characters := u "ELO" |}) by (vm_compute; reflexivity).
  split; [exact Hc|].
  exact (report_echoes_match_set h7 _ _ Hc).
Defined.

(** ** C10: null, absent and missing configuration *)

(** C10: in the JSON object, [static_data: null] is the same as no
    [static_data], and [search_characters: null] or [case_sensitive: null]
    the same as leaving that field out; with no configuration the vowels
    are counted case-insensitively and no error is raised; the only way
    to get the empty-match-set error is a present, empty
    [search_characters] string. *)
Theorem null_absent_defaults_agree `{UnicodeTables} (h : Hasher) :
  (forall top1 top2 : list (rstring * json),
     has_key (u "static_data") (top1 ++ top2) = false ->
     count_characters_json h (JObject (top1 ++ (u "static_data", JNull) :: top2))
     = count_characters_json h (JObject (top1 ++ top2)))
  /\ (forall (k : rstring) (top1 top2 ms1 ms2 : list (rstring * json)),
     k = u "search_characters" \/ k = u "case_sensitive" ->
     has_key k (ms1 ++ ms2) = false ->
     count_characters_json h
       (JObject (top1 ++ (u "static_data", JObject (ms1 ++ (k, JNull) :: ms2)) :: top2))
     = count_characters_json h
       (JObject (top1 ++ (u "static_data", JObject (ms1 ++ ms2)) :: top2)))
  /\ (forall rq : RequestData,
     count_characters_data h {| request := rq; static_data := None |}
     = count_characters_data h
         {| request := rq;
            static_data := Some {| search_characters := None; case_sensitive := None |} |})
  /\ (forall rq : RequestData,
     count_characters_data h {| request := rq; static_data := None |}
     = Ok {| count := as_i32 (matches_in_set (to_lowercase default_vowels)
                                             (to_lowercase (body rq)));
             characters := default_vowels |})
  /\ (forall d : InputData,
     count_characters_data h d = Err CharacterSetEmpty <->
     exists sd, static_data d = Some sd /\ search_characters sd = Some []).
Proof.
  split; [|split; [|split; [|split]]].
  - intros top1 top2 Hk. unfold count_characters_json.
    rewrite (de_input_null_static_data top1 top2 Hk). reflexivity.
  - intros k top1 top2 ms1 ms2 [-> | ->] Hk; unfold count_characters_json;
      rewrite (de_input_static_congr top1 top2 _ (ms1 ++ ms2)); try reflexivity.
    + exact (de_static_null_search_characters ms1 ms2 Hk).
    + exact (de_static_null_case_sensitive ms1 ms2 Hk).
  - intros rq. reflexivity.
  - intros rq. apply count_characters_data_ok. split; [exact default_vowels_nonempty|].
    reflexivity.
  - intros d. rewrite count_characters_data_err. split.
    + intros [Hm _]. unfold matching_chars in Hm.
      destruct (static_data d) as [sd|]; [|contradiction (default_vowels_nonempty Hm)].
      exists sd. split; [reflexivity|].
      destruct (search_characters sd) as [s|]; [rewrite Hm; reflexivity|].
      contradiction (default_vowels_nonempty Hm).
    + intros [sd [Hsd Hs]]. split; [exact (matching_chars_given d sd [] Hsd Hs)|reflexivity].
Qed.

Lemma null_absent_defaults_agree_witness :
  count_characters_json h7
    (JObject ([(u "request", JObject [(u "Body", JString (u "Hello World"))])]
              ++ (u "static_data", JNull) :: []))
  = count_characters_json h7
      (JObject ([(u "request", JObject [(u "Body", JString (u "Hello World"))])] ++ [])).
Proof.
  apply (proj1 (null_absent_defaults_agree h7)). vm_compute. reflexivity.
Defined.

(** * Further properties of the code *)

(** ** Unknown, duplicate and missing members *)

Lemma input_fields_unknown (k : rstring) (v : json) (ms : list (rstring * json)) rq sd :
  rstring_eqb k (u "request") = false -> rstring_eqb k (u "static_data") = false ->
  input_fields ((k, v) :: ms) rq sd = input_fields ms rq sd.
Proof. intros H1 H2. cbn [input_fields]. rewrite H1, H2. reflexivity. Qed.

Lemma request_fields_app (ms1 ms2 : list (rstring * json)) b :
  request_fields (ms1 ++ ms2) b = let? b' := request_fields ms1 b in request_fields ms2 b'.
Proof.
  revert b. induction ms1 as [|[k v] ms1 IH]; intros b; [reflexivity|].
  cbn [app request_fields]. destruct (rstring_eqb k (u "Body")); [|apply IH].
  destruct b; [reflexivity|]. destruct (de_string v); [apply IH|reflexivity].
Qed.

Lemma de_input_request_congr (top1 top2 a b : list (rstring * json)) :
  de_RequestData (JObject a) = de_RequestData (JObject b) ->
  de_InputData (JObject (top1 ++ (u "request", JObject a) :: top2))
  = de_InputData (JObject (top1 ++ (u "request", JObject b) :: top2)).
Proof.
  intros Hde. unfold de_InputData. rewrite !input_fields_app.
  destruct (input_fields top1 None None) as [[rq1 sd1]|e]; [|reflexivity].
  cbn [res_bind input_fields]. rewrite rstring_eqb_refl. destruct rq1; [reflexivity|].
  rewrite Hde. reflexivity.
Qed.

(** The decoders keep a field once it is set. *)
Lemma rstring_eqb_true (a b : rstring) : rstring_eqb a b = true -> a = b.
Proof.
  revert b. induction a as [|x a IH]; intros [|y b] E; try discriminate; [reflexivity|].
  cbn in E. apply andb_prop in E as [E1 E2]. apply Z.eqb_eq in E1. subst y.
  f_equal. apply IH, E2.
Qed.

Lemma input_fields_dup_request (ms : list (rstring * json)) x sd :
  has_key (u "request") ms = true ->
  exists e, input_fields ms (Some x) sd = Err e.
Proof.
  revert sd. induction ms as [|[k v] ms IH]; intros sd Hk; [discriminate|].
  unfold has_key in Hk. cbn [existsb fst] in Hk.
  cbn [input_fields]. destruct (rstring_eqb k (u "request")) eqn:Er; [eauto|].
  rewrite orb_false_l in Hk.
  destruct (rstring_eqb k (u "static_data")); [|apply IH, Hk].
  destruct sd; [eauto|]. destruct (de_option de_StaticData v); [apply IH, Hk|eauto].
Qed.

Lemma input_fields_dup_static (ms : list (rstring * json)) rq x :
  has_key (u "static_data") ms = true ->
  exists e, input_fields ms rq (Some x) = Err e.
Proof.
  revert rq. induction ms as [|[k v] ms IH]; intros rq Hk; [discriminate|].
  unfold has_key in Hk. cbn [existsb fst] in Hk.
  cbn [input_fields]. destruct (rstring_eqb k (u "request")) eqn:Er.
  - assert (Hs : rstring_eqb k (u "static_data") = false).
    { destruct (rstring_eqb k (u "static_data")) eqn:Es; [|reflexivity].
      apply rstring_eqb_true in Er. subst k. discriminate Es. }
    rewrite Hs, orb_false_l in Hk.
    destruct rq; [eauto|]. destruct (de_RequestData v); [apply IH, Hk|eauto].
  - destruct (rstring_eqb k (u "static_data")); [eauto|]. apply IH, Hk.
Qed.

Lemma input_fields_keeps_request (ms : list (rstring * json)) rq sd :
  has_key (u "request") ms = false ->
  forall rq' sd', input_fields ms rq sd = Ok (rq', sd') -> rq' = rq.
Proof.
  revert sd. induction ms as [|[k v] ms IH]; intros sd Hk rq' sd' Hok.
  - injection Hok as -> _. reflexivity.
  - unfold has_key in Hk. cbn [existsb fst] in Hk. apply orb_false_elim in Hk as [Hk1 Hk2].
    cbn [input_fields] in Hok. rewrite Hk1 in Hok.
    destruct (rstring_eqb k (u "static_data")); [|exact (IH sd Hk2 rq' sd' Hok)].
    destruct sd; [discriminate|].
    destruct (de_option de_StaticData v); [exact (IH _ Hk2 rq' sd' Hok)|discriminate].
Qed.

Lemma request_fields_no_body (ms : list (rstring * json)) b :
  has_key (u "Body") ms = false -> request_fields ms b = Ok b.
Proof.
  induction ms as [|[k v] ms IH]; intros Hk; [reflexivity|].
  unfold has_key in Hk. cbn [existsb fst] in Hk. apply orb_false_elim in Hk as [Hk1 Hk2].
  cbn [request_fields]. rewrite Hk1. apply IH, Hk2.
Qed.

Lemma static_fields_unknown (k : rstring) (v : json) (ms : list (rstring * json)) sc cs :
  rstring_eqb k (u "search_characters") = false -> rstring_eqb k (u "case_sensitive") = false ->
  static_fields ((k, v) :: ms) sc cs = static_fields ms sc cs.
Proof. intros H1 H2. cbn [static_fields]. rewrite H1, H2. reflexivity. Qed.

Lemma request_fields_unknown (k : rstring) (v : json) (ms : list (rstring * json)) b :
  rstring_eqb k (u "Body") = false ->
  request_fields ((k, v) :: ms) b = request_fields ms b.
Proof. intros H1. cbn [request_fields]. rewrite H1. reflexivity. Qed.

Lemma count_characters_json_decode `{UnicodeTables} (h : Hasher) (v w : json) :
  de_InputData v = de_InputData w -> count_characters_json h v = count_characters_json h w.
Proof. intros E. unfold count_characters_json. rewrite E. reflexivity. Qed.

Lemma count_characters_json_err `{UnicodeTables} (h : Hasher) (v : json) e :
  de_InputData v = Err e -> count_characters_json h v = Err (InvalidJsonInput e).
Proof. intros E. unfold count_characters_json. rewrite E. reflexivity. Qed.

(** X1: a member whose key is none of the fields of the structs, added
    to the top-level object, to the [request] object or to the
    [static_data] object, does not change what [count_characters]
    returns: the derived visitors skip unknown keys. *)
Theorem unknown_members_ignored `{UnicodeTables} (h : Hasher) (k : rstring) (v : json)
  (top1 top2 ms1 ms2 : list (rstring * json)) :
  (rstring_eqb k (u "request") = false -> rstring_eqb k (u "static_data") = false ->
   count_characters_json h (JObject (top1 ++ (k, v) :: top2))
   = count_characters_json h (JObject (top1 ++ top2)))
  /\ (rstring_eqb k (u "Body") = false ->
   count_characters_json h (JObject (top1 ++ (u "request", JObject (ms1 ++ (k, v) :: ms2)) :: top2))
   = count_characters_json h (JObject (top1 ++ (u "request", JObject (ms1 ++ ms2)) :: top2)))
  /\ (rstring_eqb k (u "search_characters") = false -> rstring_eqb k (u "case_sensitive") = false ->
   count_characters_json h (JObject (top1 ++ (u "static_data", JObject (ms1 ++ (k, v) :: ms2)) :: top2))
   = count_characters_json h (JObject (top1 ++ (u "static_data", JObject (ms1 ++ ms2)) :: top2))).
Proof.
  split; [|split].
  - intros H1 H2. apply count_characters_json_decode. unfold de_InputData.
    rewrite !input_fields_app.
    destruct (input_fields top1 None None) as [[rq sd]|e]; [|reflexivity].
    cbn [res_bind]. rewrite input_fields_unknown by assumption. reflexivity.
  - intros H1. apply count_characters_json_decode, de_input_request_congr.
    unfold de_RequestData. rewrite !request_fields_app.
    destruct (request_fields ms1 None) as [b|e]; [|reflexivity].
    cbn [res_bind]. rewrite request_fields_unknown by assumption. reflexivity.
  - intros H1 H2. apply count_characters_json_decode, de_input_static_congr.
    unfold de_StaticData. rewrite !static_fields_app.
    destruct (static_fields ms1 None None) as [[sc cs]|e]; [|reflexivity].
    cbn [res_bind]. rewrite static_fields_unknown by assumption. reflexivity.
Qed.

Lemma unknown_members_ignored_witness :
  let top1 := [(u "request", JObject [(u "Body", JString (u "Hello"))])] in
  let ms := [(u "search_characters", JString (u "lo"))] in
  (count_characters_json h7 (JObject (top1 ++ [(u "trace_id", JNumber (u "7"))]))
   = count_characters_json h7 (JObject (top1 ++ [])))
  /\ (count_characters_json h7
        (JObject ([] ++ (u "request", JObject ([] ++ [(u "Host", JNull); (u "Body", JString (u "Hello"))])) :: []))
      = count_characters_json h7
        (JObject ([] ++ (u "request", JObject ([] ++ [(u "Body", JString (u "Hello"))])) :: [])))
  /\ (count_characters_json h7 (JObject (top1 ++ (u "static_data", JObject (ms ++ [(u "mode", JBool true)])) :: []))
      = count_characters_json h7 (JObject (top1 ++ (u "static_data", JObject (ms ++ [])) :: []))).
Proof.
  cbv zeta. split; [|split].
  - apply (unknown_members_ignored h7 (u "trace_id") (JNumber (u "7")) _ [] [] []);
      vm_compute; reflexivity.
  - apply (unknown_members_ignored h7 (u "Host") JNull [] [] [] _); vm_compute; reflexivity.
  - apply (unknown_members_ignored h7 (u "mode") (JBool true) _ [] _ []);
      vm_compute; reflexivity.
Defined.

(** X2: a payload whose top-level object has the key [request], or the
    key [static_data], twice is rejected, whatever the two values are. *)
Theorem duplicate_top_level_key_rejected `{UnicodeTables} (h : Hasher) (k : rstring) (v1 v2 : json)
  (ms1 ms2 ms3 : list (rstring * json)) :
  k = u "request" \/ k = u "static_data" ->
  exists e, count_characters_json h (JObject (ms1 ++ (k, v1) :: ms2 ++ (k, v2) :: ms3))
            = Err (InvalidJsonInput e).
Proof.
  intros Hk. cut (exists e, de_InputData (JObject (ms1 ++ (k, v1) :: ms2 ++ (k, v2) :: ms3)) = Err e).
  { intros [e He]. exists e. apply count_characters_json_err, He. }
  unfold de_InputData. rewrite input_fields_app.
  destruct (input_fields ms1 None None) as [[rq sd]|e]; [|eauto].
  cbn [res_bind].
  destruct Hk as [-> | ->]; cbn [input_fields]; rewrite rstring_eqb_refl.
  - destruct rq; [eauto|]. destruct (de_RequestData v1) as [x|e]; [|eauto]. cbn [res_bind].
    destruct (input_fields_dup_request (ms2 ++ (u "request", v2) :: ms3) x sd) as [e He].
    { rewrite has_key_app. apply orb_true_intro. right. cbn. reflexivity. }
    rewrite He. eauto.
  - change (rstring_eqb (u "static_data") (u "request")) with false. cbn iota.
    destruct sd; [eauto|]. destruct (de_option de_StaticData v1) as [x|e]; [|eauto]. cbn [res_bind].
    destruct (input_fields_dup_static (ms2 ++ (u "static_data", v2) :: ms3) rq x) as [e He].
    { rewrite has_key_app. apply orb_true_intro. right. cbn. reflexivity. }
    rewrite He. eauto.
Qed.

Lemma duplicate_top_level_key_rejected_witness :
  exists e, count_characters_json h7
    (JObject ([(u "request", JObject [(u "Body", JString (u "a"))])]
              ++ (u "static_data", JNull) :: [] ++ (u "static_data", JNull) :: []))
    = Err (InvalidJsonInput e).
Proof.
  apply (duplicate_top_level_key_rejected h7 (u "static_data") JNull JNull _ [] []). right. reflexivity.
Defined.

(** X3: an input without a [request] member, or whose [request] object
    has no [Body], is rejected. *)
Theorem missing_fields_rejected `{UnicodeTables} (h : Hasher)
  (top1 top2 rms : list (rstring * json)) :
  (has_key (u "request") (top1 ++ top2) = false ->
   exists e, count_characters_json h (JObject (top1 ++ top2)) = Err (InvalidJsonInput e))
  /\ (has_key (u "Body") rms = false -> has_key (u "request") top1 = false ->
   exists e, count_characters_json h (JObject (top1 ++ (u "request", JObject rms) :: top2))
             = Err (InvalidJsonInput e)).
Proof.
  split.
  - intros Hk. cut (exists e, de_InputData (JObject (top1 ++ top2)) = Err e).
    { intros [e He]. exists e. apply count_characters_json_err, He. }
    unfold de_InputData.
    destruct (input_fields (top1 ++ top2) None None) as [[rq sd]|e] eqn:E; [|eauto].
    rewrite (input_fields_keeps_request _ _ _ Hk rq sd E). cbn. eauto.
  - intros Hb Hk.
    cut (exists e, de_InputData (JObject (top1 ++ (u "request", JObject rms) :: top2)) = Err e).
    { intros [e He]. exists e. apply count_characters_json_err, He. }
    unfold de_InputData. rewrite input_fields_app.
    destruct (input_fields top1 None None) as [[rq sd]|e] eqn:E; [|eauto].
    rewrite (input_fields_keeps_request _ _ _ Hk rq sd E).
    cbn [res_bind input_fields]. rewrite rstring_eqb_refl.
    cbn [de_RequestData]. rewrite (request_fields_no_body rms None Hb). cbn. eauto.
Qed.

Lemma missing_fields_rejected_witness :
  (exists e, count_characters_json h7
     (JObject ([(u "Request", JObject [(u "Body", JString (u "a"))])] ++ []))
     = Err (InvalidJsonInput e))
  /\ (exists e, count_characters_json h7
     (JObject ([] ++ (u "request", JObject [(u "body", JString (u "a"))]) :: []))
     = Err (InvalidJsonInput e)).
Proof.
  split.
  - apply (missing_fields_rejected h7 _ [] []). vm_compute. reflexivity.
  - apply (missing_fields_rejected h7 [] [] _); vm_compute; reflexivity.
Defined.

(** ** Counting over a concatenated body *)

(** The same input with another body. *)
Definition with_body (d : InputData) (b : rstring) : InputData :=
  {| request := {| body := b |}; static_data := static_data d |}.

Lemma to_lowercase_from_no_sigma `{UnicodeTables} (before s : rstring) :
  ~ In CAPITAL_SIGMA s -> to_lowercase_from before s = flat_map push_lower s.
Proof.
  revert before. induction s as [|c s IH]; intros before Hs; [reflexivity|].
  cbn [to_lowercase_from flat_map].
  assert (Hc : c <> CAPITAL_SIGMA) by (intros ->; apply Hs; left; reflexivity).
  rewrite (proj2 (Z.eqb_neq c CAPITAL_SIGMA) Hc), IH; [reflexivity|].
  intros Hin. apply Hs. right. exact Hin.
Qed.

Lemma matches_in_set_app (t s1 s2 : rstring) :
  matches_in_set t (s1 ++ s2) = (matches_in_set t s1 + matches_in_set t s2)%nat.
Proof. unfold matches_in_set. rewrite List.filter_app, length_app. reflexivity. Qed.

Lemma matches_in_set_le (t s : rstring) : (matches_in_set t s <= length s)%nat.
Proof. apply filter_length_le. Qed.

Lemma search_text_app `{UnicodeTables} (d : InputData) (b1 b2 : rstring) :
  (case_sensitive_of d = true \/ ~ In CAPITAL_SIGMA (b1 ++ b2)) ->
  search_text_of (with_body d (b1 ++ b2))
  = search_text_of (with_body d b1) ++ search_text_of (with_body d b2).
Proof.
  intros Hc. unfold search_text_of, case_sensitive_of. cbn [with_body static_data request body].
  fold (case_sensitive_of d).
  destruct (case_sensitive_of d) eqn:Ecs; [reflexivity|].
  destruct Hc as [Hc|Hs]; [discriminate|].
  unfold to_lowercase.
  assert (H1 : ~ In CAPITAL_SIGMA b1) by (intros Hin; apply Hs, in_or_app; left; exact Hin).
  assert (H2 : ~ In CAPITAL_SIGMA b2) by (intros Hin; apply Hs, in_or_app; right; exact Hin).
  rewrite (to_lowercase_from_no_sigma _ _ Hs), (to_lowercase_from_no_sigma _ _ H1),
    (to_lowercase_from_no_sigma _ _ H2), flat_map_app.
  reflexivity.
Qed.

(** X4: the count of a body [b1 ++ b2] is the count of [b1] plus the
    count of [b2], with the same configuration, when the comparison is
    case-sensitive or when no capital sigma (whose lowercase form
    depends on its neighbours) occurs, and the normalized body is below
    [2^31] chars so that no count wraps around. *)
Theorem count_additive `{UnicodeTables} (h : Hasher) (d : InputData) (b1 b2 : rstring)
  (r1 r2 r12 : CharacterReport) :
  (case_sensitive_of d = true \/ ~ In CAPITAL_SIGMA (b1 ++ b2)) ->
  Z.of_nat (length (search_text_of (with_body d (b1 ++ b2)))) < 2 ^ 31 ->
  count_characters_data h (with_body d b1) = Ok r1 ->
  count_characters_data h (with_body d b2) = Ok r2 ->
  count_characters_data h (with_body d (b1 ++ b2)) = Ok r12 ->
  count r12 = count r1 + count r2.
Proof.
  intros Hc Hlen E1 E2 E12.
  apply count_characters_data_ok in E1 as [_ ->], E2 as [_ ->], E12 as [_ ->].
  cbn [count].
  assert (Ht : forall b, target_chars_of (with_body d b) = target_chars_of d) by reflexivity.
  rewrite !Ht. rewrite search_text_app in Hlen |- * by exact Hc.
  rewrite length_app in Hlen. rewrite matches_in_set_app.
  pose proof (matches_in_set_le (target_chars_of d) (search_text_of (with_body d b1))).
  pose proof (matches_in_set_le (target_chars_of d) (search_text_of (with_body d b2))).
  rewrite !as_i32_small by lia. lia.
Qed.

Lemma count_additive_witness :
  let d := {| request := {| body := [] |}; static_data := None |} in
  (case_sensitive_of d = true \/ ~ In CAPITAL_SIGMA (u "Hello" ++ u " World"))
  /\ Z.of_nat (length (search_text_of (with_body d (u "Hello" ++ u " World")))) < 2 ^ 31
  /\ count_characters_data h7 (with_body d (u "Hello")) = Ok {| count := 2; characters := default_vowels |}
  /\ count_characters_data h7 (with_body d (u " World")) = Ok {| count := 1; characters := default_vowels |}
  /\ count_characters_data h7 (with_body d (u "Hello" ++ u " World"))
     = Ok {| count := 3; characters := default_vowels |}
  /\ 3 = 2 + 1.
Proof.
  cbv zeta. assert (Hs : ~ In CAPITAL_SIGMA (u "Hello" ++ u " World"))
    by (vm_compute; intros Hin; repeat destruct Hin as [Hin|Hin]; discriminate Hin || exact Hin).
  split; [right; exact Hs|]. split; [vm_compute; reflexivity|].
  split; [vm_compute; reflexivity|]. split; [vm_compute; reflexivity|].
  split; [vm_compute; reflexivity|].
  exact (count_additive h7 {| request := {| body := [] |}; static_data := None |}
           (u "Hello") (u " World") _ _ _ (or_intror Hs) (eq_refl _) (eq_refl _) (eq_refl _) (eq_refl _)).
Defined.

(** ** The default configuration on ASCII text *)

Lemma ascii_vowel_rows (c : Z) :
  0 <= c < 128 ->
  List.filter (fun x => existsb (Z.eqb x) (to_lowercase default_vowels)) (push_lower c)
  = if existsb (Z.eqb c) default_vowels then push_lower c else [].
Proof.
  intros Hc.
  assert (Hall : forallb (fun n => let c := Z.of_nat n in
     rstring_eqb
       (List.filter (fun x => existsb (Z.eqb x) (to_lowercase default_vowels)) (push_lower c))
       (if existsb (Z.eqb c) default_vowels then push_lower c else []))
     (seq 0 128) = true) by (vm_compute; reflexivity).
  rewrite forallb_forall in Hall.
  specialize (Hall (Z.to_nat c)). rewrite Z2Nat.id in Hall by lia.
  apply rstring_eqb_true, Hall, in_seq. lia.
Qed.

Lemma ascii_push_lower_single (c : Z) : 0 <= c < 128 -> length (push_lower c) = 1%nat.
Proof.
  intros Hc. unfold push_lower. cbn [to_lower unicode_rows]. unfold to_lower_rows.
  destruct (in_range 65 90 c || in_range 192 214 c || in_range 216 222 c
            || in_range 913 929 c || in_range 931 937 c); [reflexivity|].
  destruct (c =? 304) eqn:E; [apply Z.eqb_eq in E; lia|reflexivity].
Qed.

Lemma ascii_default_count (h : Hasher) (b : rstring) :
  Forall (fun c => 0 <= c < 128) b -> Z.of_nat (length b) < 2 ^ 31 ->
  count_characters_data h {| request := {| body := b |}; static_data := None |}
  = Ok {| count := Z.of_nat (length (List.filter (fun c => existsb (Z.eqb c) default_vowels) b));
          characters := default_vowels |}.
Proof.
  intros Hb Hlen. apply count_characters_data_ok. split; [exact default_vowels_nonempty|].
  unfold search_text_of, target_chars_of, case_sensitive_of, matching_chars. cbn [static_data request body].
  f_equal. unfold to_lowercase at 2.
  rewrite to_lowercase_from_no_sigma.
  2: { intros Hin. rewrite List.Forall_forall in Hb. specialize (Hb _ Hin).
       unfold CAPITAL_SIGMA in Hb. lia. }
  assert (E : matches_in_set (to_lowercase default_vowels) (flat_map push_lower b)
              = length (List.filter (fun c => existsb (Z.eqb c) default_vowels) b)).
  { unfold matches_in_set. induction b as [|c b IH]; [reflexivity|].
    apply Forall_cons_iff in Hb as [Hc Hb]. cbn [flat_map]. rewrite List.filter_app, length_app.
    rewrite ascii_vowel_rows by exact Hc. cbn [List.filter].
    rewrite IH by (exact Hb || (cbn [length] in Hlen; lia)).
    destruct (existsb (Z.eqb c) default_vowels); cbn [length];
      [rewrite ascii_push_lower_single by exact Hc|]; reflexivity. }
  rewrite E. symmetry. apply as_i32_small.
  pose proof (filter_length_le (fun c => existsb (Z.eqb c) default_vowels) b). lia.
Qed.

(** X5: with no [static_data], an ASCII body gets the count that the
    plugin's tests compute as their expected value, the number of its
    chars found in ["aeiouAEIOU"]: lowercasing both sides matches the
    ASCII vowels in either case and nothing else. *)
Theorem default_counts_ascii_vowels (h : Hasher) (b : rstring) :
  Forall (fun c => 0 <= c < 128) b -> Z.of_nat (length b) < 2 ^ 31 ->
  count_characters_data h {| request := {| body := b |}; static_data := None |}
  = Ok {| count := Z.of_nat (length (List.filter (fun c => existsb (Z.eqb c) default_vowels) b));
          characters := default_vowels |}.
Proof. apply ascii_default_count. Qed.

Lemma default_counts_ascii_vowels_witness :
  Forall (fun c => 0 <= c < 128) (u "HELLO world")
  /\ Z.of_nat (length (u "HELLO world")) < 2 ^ 31
  /\ count_characters_data h7 {| request := {| body := u "HELLO world" |}; static_data := None |}
     = Ok {| count := Z.of_nat (length (List.filter (fun c => existsb (Z.eqb c) default_vowels) (u "HELLO world")));
             characters := default_vowels |}.
Proof.
  assert (Hb : Forall (fun c => 0 <= c < 128) (u "HELLO world"))
    by (vm_compute; repeat constructor; discriminate).
  assert (Hl : Z.of_nat (length (u "HELLO world")) < 2 ^ 31) by (vm_compute; reflexivity).
  split; [exact Hb|]. split; [exact Hl|].
  exact (default_counts_ascii_vowels h7 (u "HELLO world") Hb Hl).
Defined.

(** ** serde_json and UTF-8: what is written is read back *)

Lemma digits_value_snoc (ds : rstring) (d : Z) :
  digits_value (ds ++ [d]) = digits_value ds * 10 + (d - 48).
Proof. unfold digits_value. rewrite fold_left_app. reflexivity. Qed.

Lemma digits_of_spec (f : nat) (n : Z) :
  (1 <= f)%nat -> 0 <= n < 10 ^ Z.of_nat f ->
  let ds := digits_of f n in
  forallb is_digit ds = true /\ digits_value ds = n
  /\ (exists d ds', ds = d :: ds' /\ (d = 48 -> n = 0 /\ ds' = [])).
Proof.
  revert n. induction f as [|f IH]; intros n Hf Hn; [lia|]. cbv zeta. cbn [digits_of].
  destruct (n <? 10) eqn:En.
  - apply Z.ltb_lt in En. split; [|split].
    + cbn. unfold is_digit. rewrite andb_true_r. apply andb_true_intro. split; apply Z.leb_le; lia.
    + cbn. lia.
    + exists (48 + n), []. split; [reflexivity|]. intros. split; [lia|reflexivity].
  - apply Z.ltb_ge in En.
    assert (Hf' : (1 <= f)%nat).
    { destruct f; [|lia]. cbn in Hn. lia. }
    assert (Hq : 0 <= n / 10 < 10 ^ Z.of_nat f).
    { split; [apply Z.div_pos; lia|]. apply Z.div_lt_upper_bound; [lia|].
      rewrite Nat2Z.inj_succ, Z.pow_succ_r in Hn by lia. lia. }
    destruct (IH (n / 10) Hf' Hq) as (Hd & Hv & d & ds' & Eds & Hz).
    cbv zeta in *. split; [|split].
    + rewrite forallb_app, Hd. cbn. unfold is_digit.
      pose proof (Z.mod_pos_bound n 10). rewrite andb_true_r.
      apply andb_true_intro. split; apply Z.leb_le; lia.
    + rewrite digits_value_snoc, Hv. pose proof (Z.div_mod n 10). lia.
    + rewrite Eds. exists d, (ds' ++ [48 + n mod 10]). split; [reflexivity|].
      intros Hd48. destruct (Hz Hd48) as [Hn0 _].
      pose proof (Z.div_mod n 10). pose proof (Z.mod_pos_bound n 10). lia.
Qed.

(** The digits [itoa] writes: a minus sign for a negative number, then
    digits with no leading zero, whose value is [|z|]. *)
Lemma itoa_spec (z : Z) :
  exists d ds, itoa z = (if z <? 0 then [45] else []) ++ d :: ds
  /\ forallb is_digit (d :: ds) = true /\ digits_value (d :: ds) = Z.abs z
  /\ (d = 48 -> z = 0 /\ ds = []).
Proof.
  unfold itoa. set (n := Z.abs z).
  assert (Hfuel : 0 <= n < 10 ^ Z.of_nat (S (Z.to_nat (Z.log2 n)))).
  { split; [apply Z.abs_nonneg|].
    rewrite Nat2Z.inj_succ, Z2Nat.id by apply Z.log2_nonneg.
    destruct (Z.eq_dec n 0) as [E|E]; [rewrite E; cbn; lia|].
    assert (Hl := Z.log2_spec n ltac:(unfold n; lia)).
    apply Z.lt_le_trans with (2 ^ Z.succ (Z.log2 n)); [lia|].
    apply Z.pow_le_mono_l. lia. }
  destruct (digits_of_spec (S (Z.to_nat (Z.log2 n))) n ltac:(lia) Hfuel)
    as (Hd & Hv & d & ds & Eds & Hz).
  cbv zeta in *. rewrite Eds in *. exists d, ds. split; [destruct (z <? 0); reflexivity|].
  split; [exact Hd|]. split; [exact Hv|].
  intros E. destruct (Hz E). split; [unfold n in *; lia|assumption].
Qed.

Lemma is_digit_not_minus (d : Z) : is_digit d = true -> (d =? 45) = false.
Proof. unfold is_digit. intros H. apply andb_prop in H as [H1 _]. apply Z.leb_le in H1. apply Z.eqb_neq. lia. Qed.

Lemma int_value_itoa (z : Z) : int_value (itoa z) = z.
Proof.
  destruct (itoa_spec z) as (d & ds & E & Hd & Hv & _). rewrite E.
  cbn in Hd. apply andb_prop in Hd as [Hd _].
  destruct (z <? 0) eqn:Ez; cbn [app int_value].
  - rewrite Hv. apply Z.ltb_lt in Ez. cbn. lia.
  - rewrite is_digit_not_minus by exact Hd. rewrite Hv. apply Z.ltb_ge in Ez. lia.
Qed.

Lemma is_itoa_itoa (z : Z) : is_itoa (itoa z) = true.
Proof. unfold is_itoa. rewrite int_value_itoa. apply rstring_eqb_refl. Qed.

Lemma de_i32_itoa (z : Z) :
  - 2 ^ 31 <= z < 2 ^ 31 -> de_i32 (JNumber (itoa z)) = Ok z.
Proof.
  intros Hz. unfold de_i32. rewrite int_value_itoa.
  destruct (itoa_spec z) as (d & ds & E & Hd & _ & _). rewrite E.
  assert (Hr : (- 2 ^ 31 <=? z) && (z <? 2 ^ 31) = true).
  { apply andb_true_intro. split; [apply Z.leb_le|apply Z.ltb_lt]; lia. }
  destruct (z <? 0); cbn [app].
  - cbn [Z.eqb Pos.eqb]. rewrite Hd, Hr. reflexivity.
  - pose proof Hd as Hd'. cbn in Hd'. apply andb_prop in Hd' as [Hd0 _].
    rewrite is_digit_not_minus by exact Hd0. rewrite Hd, Hr. reflexivity.
Qed.

Lemma stop_cases (rest : rstring) :
  stop rest = true -> rest = [] \/ exists c r, rest = c :: r /\ (c = 44 \/ c = 93 \/ c = 125).
Proof.
  destruct rest as [|c r]; [left; reflexivity|]. cbn. intros H. right. exists c, r. split; [reflexivity|].
  apply orb_prop in H as [H|H]; [apply orb_prop in H as [H|H]|]; apply Z.eqb_eq in H; lia.
Qed.

Lemma span_digits_app (ds rest : rstring) :
  forallb is_digit ds = true -> stop rest = true -> span_digits (ds ++ rest) = (ds, rest).
Proof.
  intros Hd Hs. induction ds as [|d ds IH].
  - apply stop_cases in Hs as [->|(c & r & -> & Hc)]; [reflexivity|].
    destruct Hc as [->|[->| ->]]; reflexivity.
  - cbn in Hd. apply andb_prop in Hd as [Hd1 Hd2]. cbn [app span_digits].
    rewrite Hd1, IH by exact Hd2. reflexivity.
Qed.

Lemma parse_number_itoa (z : Z) (rest : rstring) :
  stop rest = true -> parse_number (itoa z ++ rest) = Ok (itoa z, rest).
Proof.
  intros Hs. destruct (itoa_spec z) as (d & ds & E & Hd & _ & Hz). rewrite E.
  pose proof Hd as Hd'. cbn in Hd'. apply andb_prop in Hd' as [Hd0 Hds].
  assert (Htail : forall sign int,
    (let? (frac, s3) := match rest with
        | c :: r => if c =? 46 then let? (d, r') := digits1 r in Ok (c :: d, r') else Ok ([], rest)
        | [] => Ok ([], rest) end in
     let? (exp, s4) := match s3 with
        | c :: r =>
          if (c =? 101) || (c =? 69) then
            let '(sg, r1) := match r with
                             | d :: r' => if (d =? 43) || (d =? 45) then ([d], r') else ([], r)
                             | [] => ([], r) end in
            let? (d, r2) := digits1 r1 in Ok (c :: sg ++ d, r2)
          else Ok ([], s3)
        | [] => Ok ([], s3) end in
     Ok (sign ++ int ++ frac ++ exp, s4)) = Ok (sign ++ int, rest)).
  { intros sign int. apply stop_cases in Hs as [->|(c & r & -> & Hc)];
      [|destruct Hc as [->|[->| ->]]]; cbn; rewrite !app_nil_r; reflexivity. }
  assert (Hint : (match d :: ds ++ rest with
     | c :: r =>
        if c =? 48 then
          match r with
          | d :: _ => if is_digit d then Err (Syntax "InvalidNumber") else Ok ([c], r)
          | [] => Ok ([c], r)
          end
        else digits1 (d :: ds ++ rest)
     | [] => Err (Syntax "EofWhileParsingValue") end) = Ok (d :: ds, rest)).
  { cbn iota beta. destruct (d =? 48) eqn:E48.
    - apply Z.eqb_eq in E48. destruct (Hz E48) as [_ ->]. cbn [app].
      apply stop_cases in Hs as [->|(c & r & -> & Hc)]; [reflexivity|].
      destruct Hc as [->|[->| ->]]; subst d; reflexivity.
    - unfold digits1. change (d :: ds ++ rest) with ((d :: ds) ++ rest).
      rewrite span_digits_app by assumption. reflexivity. }
  destruct (z <? 0); cbn [app].
  - unfold parse_number. cbn [Z.eqb Pos.eqb]. cbv beta iota.
    change (d :: ds ++ rest) with (d :: ds ++ rest) in Hint. rewrite Hint. cbn [res_bind].
    rewrite Htail. reflexivity.
  - unfold parse_number. rewrite is_digit_not_minus by exact Hd0. cbv beta iota.
    rewrite Hint. cbn [res_bind]. rewrite Htail. reflexivity.
Qed.

Lemma parse_str_escape_char (c : Z) (f : nat) (acc r : rstring) :
  0 <= c -> parse_str (S f) acc (escape_char c ++ r) = parse_str f (c :: acc) r.
Proof.
  intros Hc. destruct (Z_lt_ge_dec c 32) as [Hlt|Hge].
  - assert (Hcs : c = 0 \/ c = 1 \/ c = 2 \/ c = 3 \/ c = 4 \/ c = 5 \/ c = 6 \/ c = 7 \/ c = 8 \/ c = 9 \/ c = 10 \/ c = 11 \/ c = 12 \/ c = 13 \/ c = 14 \/ c = 15 \/ c = 16 \/ c = 17 \/ c = 18 \/ c = 19 \/ c = 20 \/ c = 21 \/ c = 22 \/ c = 23 \/ c = 24 \/ c = 25 \/ c = 26 \/ c = 27 \/ c = 28 \/ c = 29 \/ c = 30 \/ c = 31) by lia.
    repeat destruct Hcs as [->|Hcs]; try reflexivity. subst c. reflexivity.
  - unfold escape_char.
    assert (E1 : (c =? 8) = false) by (apply Z.eqb_neq; lia).
    assert (E2 : (c =? 12) = false) by (apply Z.eqb_neq; lia).
    assert (E3 : (c =? 10) = false) by (apply Z.eqb_neq; lia).
    assert (E4 : (c =? 13) = false) by (apply Z.eqb_neq; lia).
    assert (E5 : (c =? 9) = false) by (apply Z.eqb_neq; lia).
    assert (E6 : (0 <=? c) && (c <? 32) = false)
      by (apply andb_false_intro2, Z.ltb_ge; lia).
    destruct (c =? 34) eqn:Eq; [apply Z.eqb_eq in Eq; subst c; reflexivity|].
    destruct (c =? 92) eqn:Eb; [apply Z.eqb_eq in Eb; subst c; reflexivity|].
    rewrite E1, E2, E3, E4, E5, E6. cbn [app parse_str]. rewrite Eq, Eb.
    assert (E7 : (c <? 32) = false) by (apply Z.ltb_ge; lia). rewrite E7. reflexivity.
Qed.

Lemma escape_char_nonempty (c : Z) : escape_char c <> [].
Proof.
  unfold escape_char.
  repeat match goal with |- context [if ?b then _ else _] => destruct b end; discriminate.
Qed.

Lemma flat_map_escape_length (s : rstring) : (length s <= length (flat_map escape_char s))%nat.
Proof.
  induction s as [|c s IH]; cbn [flat_map length]; [lia|]. rewrite length_app.
  pose proof (escape_char_nonempty c). destruct (escape_char c); [contradiction|cbn; lia].
Qed.

Lemma parse_str_escaped (s : rstring) :
  forallb (Z.leb 0) s = true ->
  forall f acc rest, (length s < f)%nat ->
  parse_str f acc (flat_map escape_char s ++ 34 :: rest) = Ok (rev acc ++ s, rest).
Proof.
  intros Hs. induction s as [|c s IH]; intros f acc rest Hf; (destruct f as [|f]; [cbn in Hf; lia|]).
  - cbn. rewrite app_nil_r. reflexivity.
  - cbn in Hs. apply andb_prop in Hs as [Hc Hs]. apply Z.leb_le in Hc.
    cbn [flat_map]. rewrite <- app_assoc, parse_str_escape_char by exact Hc.
    rewrite IH by (exact Hs || (cbn in Hf; lia)). cbn. rewrite <- app_assoc. reflexivity.
Qed.

Lemma join_comma_cons (a : rstring) (xs : list rstring) :
  join_comma (a :: xs) = a ++ match xs with [] => [] | _ => 44 :: join_comma xs end.
Proof. destruct xs; cbn [join_comma]; [rewrite app_nil_r|]; reflexivity. Qed.

Section JsonInd.
Variable P : json -> Prop.
Hypothesis HNull : P JNull.
Hypothesis HBool : forall b, P (JBool b).
Hypothesis HNum : forall raw, P (JNumber raw).
Hypothesis HStr : forall s, P (JString s).
Hypothesis HArr : forall l, Forall P l -> P (JArray l).
Hypothesis HObj : forall m, Forall (fun kx => P (snd kx)) m -> P (JObject m).

(** Induction on JSON values, through the lists they hold. *)
Fixpoint json_ind_nested (v : json) : P v :=
  match v with
  | JNull => HNull
  | JBool b => HBool b
  | JNumber raw => HNum raw
  | JString s => HStr s
  | JArray l =>
      HArr l ((fix go (l : list json) : Forall P l :=
                 match l with
                 | [] => @List.Forall_nil _ _
                 | x :: r => @List.Forall_cons _ P x r (json_ind_nested x) (go r)
                 end) l)
  | JObject m =>
      HObj m ((fix go (m : list (rstring * json)) : Forall (fun kx => P (snd kx)) m :=
                 match m with
                 | [] => @List.Forall_nil _ _
                 | (k, x) :: r => @List.Forall_cons _ (fun kx => P (snd kx)) (k, x) r (json_ind_nested x) (go r)
                 end) m)
  end.
End JsonInd.

Lemma digit_head (d : Z) :
  is_digit d = true ->
  is_ws d = false /\ (d =? 110) = false /\ (d =? 116) = false /\ (d =? 102) = false
  /\ (d =? 93) = false /\ (d =? 125) = false.
Proof.
  unfold is_digit, is_ws. intros H. apply andb_prop in H as [H1 H2].
  apply Z.leb_le in H1, H2.
  repeat split; repeat (apply orb_false_intro); apply Z.eqb_neq; lia.
Qed.

(** The text of a value starts with a char that is no whitespace and
    no closing bracket or brace. *)
Lemma to_json_head (v : json) :
  wf_json v = true ->
  exists c t, to_json v = c :: t /\ is_ws c = false /\ (c =? 93) = false /\ (c =? 125) = false.
Proof.
  intros Hv. destruct v as [| [|] | raw | s | l | m];
    try (cbn; eexists _, _; split; [reflexivity|]; repeat split; fail).
  cbn [wf_json to_json] in Hv |- *. unfold is_itoa in Hv. apply rstring_eqb_true in Hv. rewrite Hv.
  destruct (itoa_spec (int_value raw)) as (d & ds & E & Hd & _). rewrite E.
  destruct (int_value raw <? 0); cbn [app].
  - eexists _, _. split; [reflexivity|]. repeat split.
  - cbn in Hd. apply andb_prop in Hd as [Hd _]. destruct (digit_head d Hd) as (? & _ & _ & _ & ? & ?).
    exists d, ds. auto.
Qed.

Lemma skip_ws_head (c : Z) (t : rstring) : is_ws c = false -> skip_ws (c :: t) = c :: t.
Proof. intros H. cbn. rewrite H. reflexivity. Qed.

Lemma parse_value_number (f : nat) (c : Z) (r : rstring) :
  is_ws c = false -> (c =? 110) = false -> (c =? 116) = false -> (c =? 102) = false ->
  (c =? 45) || is_digit c = true ->
  parse_value (S f) (c :: r) = let? (raw, r') := parse_number (c :: r) in Ok (JNumber raw, r').
Proof.
  intros H1 H2 H3 H4 H5. cbn [parse_value]. rewrite skip_ws_head by exact H1.
  cbv iota beta. rewrite H2, H3, H4, H5. reflexivity.
Qed.

Lemma stop_not_ws (c : Z) (r : rstring) : stop (c :: r) = true -> is_ws c = false.
Proof.
  intros H. apply stop_cases in H as [H|(c' & r' & E & Hc)]; [discriminate|].
  injection E as -> _. destruct Hc as [->|[->| ->]]; reflexivity.
Qed.

Lemma parse_elems_cons (f : nat) (first : bool) (c : Z) (t T : rstring) (v : json) :
  is_ws c = false -> (c =? 93) = false -> parse_value f (c :: t) = Ok (v, T) ->
  parse_elems (S f) first (c :: t)
  = match skip_ws T with
    | [] => Err (Syntax "EofWhileParsingList")
    | d :: r1 =>
        if d =? 44 then let? (vs, s2) := parse_elems f false r1 in Ok (v :: vs, s2)
        else if d =? 93 then Ok ([v], r1)
        else Err (Syntax "ExpectedListCommaOrEnd")
    end.
Proof.
  intros H1 H2 H3. cbn [parse_elems]. rewrite skip_ws_head by exact H1.
  cbv iota beta. rewrite H2, H3. reflexivity.
Qed.

Lemma parse_members_cons (f : nat) (first : bool) (k t T : rstring) (v : json) :
  parse_str (length (flat_map escape_char k ++ 34 :: 58 :: t)) [] (flat_map escape_char k ++ 34 :: 58 :: t)
    = Ok (k, 58 :: t) ->
  parse_value f t = Ok (v, T) ->
  parse_members (S f) first (34 :: flat_map escape_char k ++ 34 :: 58 :: t)
  = match skip_ws T with
    | [] => Err (Syntax "EofWhileParsingObject")
    | e :: r2 =>
        if e =? 44 then let? (ms, s3) := parse_members f false r2 in Ok ((k, v) :: ms, s3)
        else if e =? 125 then Ok ([(k, v)], r2)
        else Err (Syntax "ExpectedObjectCommaOrEnd")
    end.
Proof.
  intros H1 H2. cbn [parse_members]. rewrite skip_ws_head by reflexivity.
  cbv iota beta. cbn [Z.eqb Pos.eqb]. cbv iota beta. rewrite H1. cbn [res_bind].
  change (skip_ws (58 :: t)) with (58 :: t). cbv iota beta.
  change (58 =? 58) with true. cbv iota beta.
  rewrite H2. reflexivity.
Qed.

Lemma parse_value_to_json (v : json) :
  wf_json v = true -> forall fuel rest, (jsize v < fuel)%nat -> stop rest = true ->
  parse_value fuel (to_json v ++ rest) = Ok (v, rest).
Proof.
  induction v as [| b | raw | s | l IHl | m IHm] using json_ind_nested;
    intros Hv fuel rest Hf Hs; (destruct fuel as [|f]; [cbn in Hf; lia|]).
  - reflexivity.
  - destruct b; reflexivity.
  - cbn [wf_json] in Hv. unfold is_itoa in Hv. apply rstring_eqb_true in Hv.
    set (z := int_value raw) in Hv. clearbody z. subst raw. cbn [to_json].
    pose proof (parse_number_itoa z rest Hs) as P.
    destruct (itoa_spec z) as (d & ds & E & Hd & _). rewrite E in P |- *.
    destruct (z <? 0); cbn [app] in P |- *.
    + rewrite parse_value_number by reflexivity. rewrite P. reflexivity.
    + cbn in Hd. apply andb_prop in Hd as [Hd _].
      destruct (digit_head d Hd) as (H1 & H2 & H3 & H4 & _).
      rewrite parse_value_number by (try assumption; rewrite Hd, orb_true_r; reflexivity).
      rewrite P. reflexivity.
  - cbn [wf_json] in Hv. cbn [to_json escape_str app]. rewrite <- app_assoc. cbn [app].
    change (parse_value (S f) (34 :: flat_map escape_char s ++ 34 :: rest))
      with (let? (str, r') := parse_str (length (flat_map escape_char s ++ 34 :: rest)) []
                                (flat_map escape_char s ++ 34 :: rest) in Ok (JString str, r')).
    rewrite parse_str_escaped; [reflexivity|exact Hv|].
    rewrite length_app. cbn [length]. pose proof (flat_map_escape_length s). lia.
  - cbn [wf_json] in Hv. cbn [to_json app]. rewrite <- app_assoc. cbn [app].
    change (parse_value (S f) (91 :: join_comma (map to_json l) ++ 93 :: rest))
      with (let? (l', r') := parse_elems f true (join_comma (map to_json l) ++ 93 :: rest) in
            Ok (JArray l', r')).
    cbn [jsize] in Hf.
    assert (Helems : forall first f, (list_sum (map (fun x => S (jsize x)) l) < f)%nat ->
              first = true \/ l <> [] ->
              parse_elems f first (join_comma (map to_json l) ++ 93 :: rest) = Ok (l, rest)).
    { clear f Hf. induction IHl as [|x r Px Pr IHr]; intros first f Hf Hfirst.
      - destruct Hfirst as [->|[]]; [|reflexivity]. destruct f as [|f]; [cbn in Hf; lia|]. reflexivity.
      - cbn [forallb] in Hv. apply andb_prop in Hv as [Hx Hr].
        destruct f as [|f]; [cbn in Hf; lia|]. cbn [list_sum map fold_right] in Hf.
        rewrite map_cons, join_comma_cons, <- app_assoc.
        destruct (to_json_head x Hx) as (c & t & Et & Hws & H93 & _).
        set (T := (match map to_json r with [] => [] | _ => 44 :: join_comma (map to_json r) end
                   ++ 93 :: rest)).
        assert (HT : stop T = true) by (unfold T; destruct (map to_json r); reflexivity).
        pose proof (Px Hx f T ltac:(lia) HT) as Hx'. rewrite Et in Hx' |- *. cbn [app] in Hx' |- *.
        rewrite (parse_elems_cons f first c (t ++ T) T x Hws H93 Hx').
        unfold T. destruct r as [|y r'].
        + reflexivity.
        + assert (Hr' : (list_sum (map (fun x => S (jsize x)) (y :: r')) < f)%nat)
            by (cbn [list_sum map foldr] in Hf |- *; lia).
          assert (Hne : y :: r' <> []) by discriminate.
          specialize (IHr Hr false f Hr' (or_intror Hne)).
          cbn [map app] in IHr |- *. rewrite skip_ws_head by reflexivity. cbv iota beta.
          change (44 =? 44) with true. cbv iota beta.
          rewrite IHr. reflexivity. }
    rewrite Helems; [reflexivity|lia|left; reflexivity].
  - cbn [wf_json] in Hv. cbn [to_json app]. rewrite <- app_assoc. cbn [app].
    set (mem := fun kx : rstring * json => let '(k, x) := kx in escape_str k ++ 58 :: to_json x).
    change (parse_value (S f) (123 :: join_comma (map mem m) ++ 125 :: rest))
      with (let? (m', r') := parse_members f true (join_comma (map mem m) ++ 125 :: rest) in
            Ok (JObject m', r')).
    cbn [jsize] in Hf.
    assert (Hmembers : forall first f,
              (list_sum (map (fun '(_, x) => S (jsize x)) m) < f)%nat ->
              first = true \/ m <> [] ->
              parse_members f first (join_comma (map mem m) ++ 125 :: rest) = Ok (m, rest)).
    { clear f Hf. induction IHm as [|[k x] r Px Pr IHr]; intros first f Hf Hfirst.
      - destruct Hfirst as [->|[]]; [|reflexivity]. destruct f as [|f]; [cbn in Hf; lia|]. reflexivity.
      - cbn [forallb] in Hv. apply andb_prop in Hv as [Hkx Hr]. apply andb_prop in Hkx as [Hk Hx].
        cbn [snd] in Px.
        destruct f as [|f]; [cbn in Hf; lia|].
        rewrite map_cons, join_comma_cons.
        set (T := (match map mem r with [] => [] | _ => 44 :: join_comma (map mem r) end
                   ++ 125 :: rest)).
        assert (Etext : (mem (k, x) ++ match map mem r with [] => [] | _ => 44 :: join_comma (map mem r) end)
                          ++ 125 :: rest
                        = 34 :: flat_map escape_char k ++ 34 :: 58 :: (to_json x ++ T)).
        { unfold T, mem, escape_str. cbn [app]. rewrite <- !app_assoc. reflexivity. }
        rewrite Etext.
        assert (HT : stop T = true) by (unfold T; destruct (map mem r); reflexivity).
        assert (Hjx : (jsize x < f)%nat) by (cbn [list_sum map foldr] in Hf; lia).
        pose proof (Px Hx f T Hjx HT) as Hx'.
        assert (Hk' : parse_str (length (flat_map escape_char k ++ 34 :: 58 :: (to_json x ++ T))) []
                        (flat_map escape_char k ++ 34 :: 58 :: (to_json x ++ T))
                      = Ok (k, 58 :: (to_json x ++ T))).
        { rewrite parse_str_escaped; [reflexivity|exact Hk|].
          rewrite length_app. cbn [length]. pose proof (flat_map_escape_length k). lia. }
        rewrite (parse_members_cons f first k (to_json x ++ T) T x Hk' Hx').
        unfold T. destruct r as [|[k' y] r'].
        + reflexivity.
        + assert (Hr' : (list_sum (map (fun '(_, x) => S (jsize x)) ((k', y) :: r')) < f)%nat)
            by (cbn [list_sum map foldr] in Hf |- *; lia).
          assert (Hne : (k', y) :: r' <> []) by discriminate.
          specialize (IHr Hr false f Hr' (or_intror Hne)).
          cbn [map app] in IHr |- *. rewrite skip_ws_head by reflexivity. cbv iota beta.
          change (44 =? 44) with true. cbv iota beta.
          rewrite IHr. reflexivity. }
    rewrite Hmembers; [reflexivity|lia|left; reflexivity].
Qed.

Lemma join_comma_length {A} (f : A -> rstring) (hm : A -> nat) (l : list A) :
  Forall (fun x => (hm x <= S (length (f x)))%nat) l ->
  (list_sum (map hm l) <= S (length (join_comma (map f l))))%nat.
Proof.
  induction 1 as [|x r Hx Hr IH]; cbn [map list_sum foldr]; [lia|].
  rewrite join_comma_cons, length_app. fold (list_sum (map hm r)).
  destruct r as [|y r']; cbn [map length] in *; [cbn; lia|]. lia.
Qed.

Lemma jsize_le_length (v : json) : wf_json v = true -> (jsize v <= length (to_json v))%nat.
Proof.
  induction v as [| b | raw | s | l IHl | m IHm] using json_ind_nested; intros Hv.
  - cbn. lia.
  - destruct b; cbn; lia.
  - cbn [wf_json] in Hv. unfold is_itoa in Hv. apply rstring_eqb_true in Hv.
    cbn [to_json jsize]. rewrite Hv. destruct (itoa_spec (int_value raw)) as (d & ds & E & _).
    rewrite E. rewrite length_app. cbn [length]. lia.
  - cbn. lia.
  - cbn [wf_json] in Hv. cbn [jsize to_json length]. rewrite length_app. cbn [length].
    assert (Hl : Forall (fun x => (S (jsize x) <= S (length (to_json x)))%nat) l).
    { rewrite List.Forall_forall in IHl |- *. rewrite forallb_forall in Hv.
      intros x Hx. specialize (IHl x Hx (Hv x Hx)). lia. }
    pose proof (join_comma_length to_json (fun x => S (jsize x)) l Hl). lia.
  - cbn [wf_json] in Hv. cbn [jsize to_json length]. rewrite length_app. cbn [length].
    set (mem := fun kx : rstring * json => let '(k, x) := kx in escape_str k ++ 58 :: to_json x).
    assert (Hm : Forall (fun kx => ((let '(_, x) := kx in S (jsize x)) <= S (length (mem kx)))%nat) m).
    { rewrite List.Forall_forall in IHm |- *. rewrite forallb_forall in Hv.
      intros [k x] Hkx. specialize (IHm (k, x) Hkx). specialize (Hv (k, x) Hkx).
      apply andb_prop in Hv as [_ Hx]. specialize (IHm Hx). cbn [snd] in IHm.
      unfold mem, escape_str. rewrite length_app. cbn [length]. lia. }
    pose proof (join_comma_length mem (fun '(_, x) => S (jsize x)) m Hm). lia.
Qed.

(** serde_json reads back what it writes. *)
Lemma parse_json_to_json (v : json) : wf_json v = true -> parse_json (to_json v) = Ok v.
Proof.
  intros Hv. unfold parse_json.
  pose proof (parse_value_to_json v Hv (S (length (to_json v))) [])
    as P. rewrite app_nil_r in P. rewrite P; [reflexivity| |reflexivity].
  pose proof (jsize_le_length v Hv). lia.
Qed.

Lemma lor_land_tag (y m t n : Z) :
  0 <= n -> m = Z.ones n -> Z.land m t = 0 -> Z.lor (Z.land y m) t = y mod 2 ^ n + t.
Proof.
  intros Hn -> Ht. rewrite <- Z.add_nocarry_lor.
  - rewrite Z.land_ones by exact Hn. reflexivity.
  - rewrite <- Z.land_assoc, Ht, Z.land_0_r. reflexivity.
Qed.

Ltac zbool_case :=
  match goal with
  | |- context [Z.ltb ?a ?b] => destruct (Z.ltb_spec a b)
  | |- context [Z.leb ?a ?b] => destruct (Z.leb_spec a b)
  | |- context [Z.eqb ?a ?b] => destruct (Z.eqb_spec a b)
  end.

Ltac zbool_prune :=
  unfold utf8_cont; repeat (zbool_case; cbn [andb orb negb]; try lia); try reflexivity.

Lemma from_utf8_1 (b : Z) (r : list Z) :
  0 <= b < 128 -> from_utf8 (b :: r) = option_map (cons b) (from_utf8 r).
Proof. intros Hb. cbn [from_utf8]. destruct (Z.ltb_spec b 128); [reflexivity|lia]. Qed.

Lemma from_utf8_2 (b0 b1 : Z) (r : list Z) :
  194 <= b0 <= 223 -> 128 <= b1 <= 191 ->
  from_utf8 (b0 :: b1 :: r) = option_map (cons ((b0 - 192) * 64 + (b1 - 128))) (from_utf8 r).
Proof. intros H0 H1. cbn [from_utf8]. zbool_prune. Qed.

Lemma from_utf8_3 (b0 b1 b2 : Z) (r : list Z) :
  224 <= b0 <= 239 -> 128 <= b1 <= 191 -> 128 <= b2 <= 191 ->
  (b0 = 224 -> 160 <= b1) -> (b0 = 237 -> b1 <= 159) ->
  from_utf8 (b0 :: b1 :: b2 :: r)
  = option_map (cons (((b0 - 224) * 64 + (b1 - 128)) * 64 + (b2 - 128))) (from_utf8 r).
Proof. intros H0 H1 H2 H3 H4. cbn [from_utf8]. zbool_prune. Qed.

Lemma from_utf8_4 (b0 b1 b2 b3 : Z) (r : list Z) :
  240 <= b0 <= 244 -> 128 <= b1 <= 191 -> 128 <= b2 <= 191 -> 128 <= b3 <= 191 ->
  (b0 = 240 -> 144 <= b1) -> (b0 = 244 -> b1 <= 143) ->
  from_utf8 (b0 :: b1 :: b2 :: b3 :: r)
  = option_map (cons ((((b0 - 240) * 64 + (b1 - 128)) * 64 + (b2 - 128)) * 64 + (b3 - 128)))
      (from_utf8 r).
Proof. intros H0 H1 H2 H3 H4 H5. cbn [from_utf8]. zbool_prune. Qed.

Lemma from_utf8_encode_char (c : Z) (r : list Z) :
  is_scalar c = true ->
  from_utf8 (utf8_encode_char c ++ r) = option_map (cons c) (from_utf8 r).
Proof.
  unfold is_scalar. intros Hc. apply andb_prop in Hc as [Hc Hs]. apply andb_prop in Hc as [H0 H1].
  apply Z.leb_le in H0, H1. apply negb_true_iff in Hs.
  assert (Hsur : ~ (55296 <= c <= 57343)).
  { intros [A B]. apply Z.leb_le in A, B. rewrite A, B in Hs. discriminate. }
  clear Hs.
  assert (S6 : Z.shiftr c 6 = c / 64) by (rewrite Z.shiftr_div_pow2; [reflexivity|lia]).
  assert (S12 : Z.shiftr c 12 = c / 4096) by (rewrite Z.shiftr_div_pow2; [reflexivity|lia]).
  assert (S18 : Z.shiftr c 18 = c / 262144) by (rewrite Z.shiftr_div_pow2; [reflexivity|lia]).
  unfold utf8_encode_char. rewrite S6, S12, S18.
  rewrite (lor_land_tag _ 31 192 5), (lor_land_tag _ 15 224 4), (lor_land_tag _ 7 240 3),
    !(lor_land_tag _ 63 128 6) by (lia || reflexivity).
  change (2 ^ 5) with 32. change (2 ^ 4) with 16. change (2 ^ 3) with 8. change (2 ^ 6) with 64.
  assert (D1 : c = 64 * (c / 64) + c mod 64) by (apply Z.div_mod; lia).
  assert (D2 : c / 64 = 64 * (c / 4096) + (c / 64) mod 64).
  { change 4096 with (64 * 64). rewrite <- Z.div_div by lia. apply Z.div_mod. lia. }
  assert (D3 : c / 4096 = 64 * (c / 262144) + (c / 4096) mod 64).
  { change 262144 with (4096 * 64). rewrite <- Z.div_div by lia. apply Z.div_mod. lia. }
  pose proof (Z.mod_pos_bound c 64 ltac:(lia)) as M1.
  pose proof (Z.mod_pos_bound (c / 64) 64 ltac:(lia)) as M2.
  pose proof (Z.mod_pos_bound (c / 4096) 64 ltac:(lia)) as M3.
  assert (P1 : 0 <= c / 64) by (apply Z.div_pos; lia).
  assert (P2 : 0 <= c / 4096) by (apply Z.div_pos; lia).
  assert (P3 : 0 <= c / 262144) by (apply Z.div_pos; lia).
  destruct (Z.ltb_spec c 128); [cbn [app]; apply from_utf8_1; lia|].
  destruct (Z.ltb_spec c 2048); cbn [app].
  { rewrite (Z.mod_small (c / 64) 32) by lia.
    generalize dependent (c / 64); generalize dependent (c mod 64); intros.
    rewrite from_utf8_2 by lia. f_equal. f_equal. lia. }
  destruct (Z.ltb_spec c 65536); cbn [app].
  { rewrite (Z.mod_small (c / 4096) 16) by lia.
    generalize dependent (c / 4096); generalize dependent ((c / 64) mod 64);
    generalize dependent (c / 64); generalize dependent (c mod 64); intros.
    rewrite from_utf8_3 by lia. f_equal. f_equal. lia. }
  rewrite (Z.mod_small (c / 262144) 8) by lia.
  generalize dependent (c / 262144); generalize dependent ((c / 4096) mod 64);
  generalize dependent (c / 4096); generalize dependent ((c / 64) mod 64);
  generalize dependent (c / 64); generalize dependent (c mod 64); intros.
  rewrite from_utf8_4 by lia. f_equal. f_equal. lia.
Qed.

Lemma from_utf8_utf8_encode (s : rstring) :
  forallb is_scalar s = true -> from_utf8 (utf8_encode s) = Some s.
Proof.
  induction s as [|c s IH]; [reflexivity|].
  cbn [forallb]. intros Hs. apply andb_prop in Hs as [Hc Hs].
  unfold utf8_encode. cbn [flat_map]. rewrite from_utf8_encode_char by exact Hc.
  fold (utf8_encode s). rewrite IH by exact Hs. reflexivity.
Qed.

Lemma option_map_cons_some (c : Z) (o : option rstring) (s : rstring) :
  option_map (cons c) o = Some s -> exists s', o = Some s' /\ s = c :: s'.
Proof. destruct o as [s'|]; cbn; [intros E; injection E as <-; eauto|discriminate]. Qed.

Lemma from_utf8_scalars (n : nat) (bs : list Z) (s : rstring) :
  (length bs <= n)%nat -> forallb is_byte bs = true ->
  from_utf8 bs = Some s -> forallb is_scalar s = true.
Proof.
  revert bs s. induction n as [|n IH]; intros bs s Hn Hb.
  { destruct bs; [cbn; intros E; injection E as <-; reflexivity|cbn in Hn; lia]. }
  destruct bs as [|b0 r]; [cbn; intros E; injection E as <-; reflexivity|].
  cbn [forallb] in Hb. apply andb_prop in Hb as [Hb0 Hr]. unfold is_byte in Hb0.
  cbn [length] in Hn. cbn [from_utf8].
  destruct (Z.ltb_spec b0 128).
  { intros E. apply option_map_cons_some in E as (s' & E & ->).
    cbn [forallb]. rewrite (IH r s') by (auto; lia).
    unfold is_scalar. zbool_prune. }
  destruct ((194 <=? b0) && (b0 <=? 223)) eqn:E2.
  { destruct r as [|b1 r1]; [discriminate|].
    cbn [forallb] in Hr. apply andb_prop in Hr as [Hb1 Hr]. unfold is_byte in Hb1.
    destruct (utf8_cont b1) eqn:C1; [|discriminate].
    intros E. apply option_map_cons_some in E as (s' & E & ->).
    cbn [forallb]. cbn [length] in Hn. rewrite (IH r1 s') by (auto; lia).
    revert E2 C1 Hb0 Hb1. unfold is_scalar. zbool_prune. }
  destruct ((224 <=? b0) && (b0 <=? 239)) eqn:E3.
  { destruct r as [|b1 [|b2 r2]]; try discriminate.
    cbn [forallb] in Hr. apply andb_prop in Hr as [Hb1 Hr]. apply andb_prop in Hr as [Hb2 Hr].
    unfold is_byte in Hb1, Hb2.
    destruct ((if b0 =? 224 then (160 <=? b1) && (b1 <=? 191)
               else if b0 =? 237 then (128 <=? b1) && (b1 <=? 159)
               else utf8_cont b1) && utf8_cont b2) eqn:C; [|discriminate].
    intros E. apply option_map_cons_some in E as (s' & E & ->).
    cbn [forallb]. cbn [length] in Hn. rewrite (IH r2 s') by (auto; lia).
    revert E2 E3 C Hb0 Hb1 Hb2. unfold is_scalar. zbool_prune. }
  destruct ((240 <=? b0) && (b0 <=? 244)) eqn:E4; [|discriminate].
  destruct r as [|b1 [|b2 [|b3 r3]]]; try discriminate.
  cbn [forallb] in Hr. apply andb_prop in Hr as [Hb1 Hr]. apply andb_prop in Hr as [Hb2 Hr].
  apply andb_prop in Hr as [Hb3 Hr]. unfold is_byte in Hb1, Hb2, Hb3.
  destruct ((if b0 =? 240 then (144 <=? b1) && (b1 <=? 191)
             else if b0 =? 244 then (128 <=? b1) && (b1 <=? 143)
             else utf8_cont b1) && utf8_cont b2 && utf8_cont b3) eqn:C; [|discriminate].
  intros E. apply option_map_cons_some in E as (s' & E & ->).
  cbn [forallb]. cbn [length] in Hn. rewrite (IH r3 s') by (auto; lia).
  revert E2 E3 E4 C Hb0 Hb1 Hb2 Hb3. unfold is_scalar. zbool_prune.
Qed.

Lemma scalars_app (a b : rstring) : scalars (a ++ b) = scalars a && scalars b.
Proof. unfold scalars. apply forallb_app. Qed.

Lemma res_bind_ok {A B E} (m : result A E) (k : A -> result B E) (b : B) :
  res_bind m k = Ok b -> exists a, m = Ok a /\ k a = Ok b.
Proof. destruct m as [a|e]; cbn; [intros H; exists a; auto|discriminate]. Qed.

Lemma skip_ws_suffix (s : rstring) : exists p, s = p ++ skip_ws s.
Proof.
  induction s as [|c s [p IH]]; [exists []; reflexivity|]. cbn.
  destruct (is_ws c); [exists (c :: p); cbn; f_equal; exact IH|exists []; reflexivity].
Qed.

Lemma strip_prefix_app (p s r : rstring) : strip_prefix p s = Some r -> s = p ++ r.
Proof.
  revert s. induction p as [|a p IH]; intros [|b s]; cbn; intros H; try discriminate.
  - injection H as <-. reflexivity.
  - injection H as <-. reflexivity.
  - destruct (Z.eqb_spec a b); [subst; f_equal; apply IH, H|discriminate].
Qed.

Lemma span_digits_app' (s d r : rstring) : span_digits s = (d, r) -> s = d ++ r.
Proof.
  revert d r. induction s as [|c s IH]; cbn; intros d r E.
  - injection E as <- <-. reflexivity.
  - destruct (is_digit c).
    + destruct (span_digits s) as [d' r'] eqn:E'. injection E as <- <-. cbn. f_equal. apply IH. reflexivity.
    + injection E as <- <-. reflexivity.
Qed.

Lemma digits1_app (s d r : rstring) : digits1 s = Ok (d, r) -> s = d ++ r.
Proof.
  unfold digits1. destruct (span_digits s) as [[|x d'] r'] eqn:E; [discriminate|].
  intros H. injection H as <- <-. apply span_digits_app', E.
Qed.

Lemma parse_number_app (s raw r : rstring) : parse_number s = Ok (raw, r) -> s = raw ++ r.
Proof.
  unfold parse_number. intros H.
  assert (Hsg : exists sign s1, s = sign ++ s1 /\
            (sign, s1) = match s with
                         | c :: r => if c =? 45 then ([c], r) else ([], s)
                         | [] => ([], s)
                         end).
  { destruct s as [|c s]; [exists [], []; auto|].
    destruct (c =? 45); [exists [c], s|exists [], (c :: s)]; auto. }
  destruct Hsg as (sign & s1 & Es & Eq). rewrite <- Eq in H. clear Eq.
  apply res_bind_ok in H as ([int s2] & H1 & H).
  apply res_bind_ok in H as ([frac s3] & H2 & H).
  apply res_bind_ok in H as ([ex s4] & H3 & H).
  injection H as <- <-.
  assert (E1 : s1 = int ++ s2).
  { destruct s1 as [|c r1]; [discriminate|].
    destruct (c =? 48).
    - destruct r1 as [|d r1']; [injection H1 as <- <-; reflexivity|].
      destruct (is_digit d); [discriminate|injection H1 as <- <-; reflexivity].
    - apply digits1_app, H1. }
  assert (E2 : s2 = frac ++ s3).
  { destruct s2 as [|c r2]; [injection H2 as <- <-; reflexivity|].
    destruct (c =? 46).
    - apply res_bind_ok in H2 as ([d r'] & D & H2). injection H2 as <- <-.
      apply digits1_app in D. subst. reflexivity.
    - injection H2 as <- <-. reflexivity. }
  assert (E3 : s3 = ex ++ s4).
  { destruct s3 as [|c r3]; [injection H3 as <- <-; reflexivity|].
    destruct ((c =? 101) || (c =? 69)).
    - assert (Hsg : exists sg r1, r3 = sg ++ r1 /\
                (sg, r1) = match r3 with
                           | d :: r' => if (d =? 43) || (d =? 45) then ([d], r') else ([], r3)
                           | [] => ([], r3)
                           end).
      { destruct r3 as [|d r3]; [exists [], []; auto|].
        destruct ((d =? 43) || (d =? 45)); [exists [d], r3|exists [], (d :: r3)]; auto. }
      destruct Hsg as (sg & r1 & Er & Eq). rewrite <- Eq in H3. clear Eq.
      apply res_bind_ok in H3 as ([d r2] & D & H3). injection H3 as <- <-.
      apply digits1_app in D. rewrite Er, D. cbn [app]. rewrite <- app_assoc. reflexivity.
    - injection H3 as <- <-. reflexivity. }
  subst. rewrite <- !app_assoc. reflexivity.
Qed.

Lemma text_suffix_refl (s : rstring) : text_suffix s s.
Proof. exists []. reflexivity. Qed.

Lemma text_suffix_trans (r s t : rstring) : text_suffix r s -> text_suffix s t -> text_suffix r t.
Proof. intros [p ->] [q ->]. exists (q ++ p). rewrite app_assoc. reflexivity. Qed.

Lemma text_suffix_cons (c : Z) (r s : rstring) : text_suffix r s -> text_suffix r (c :: s).
Proof. intros [p ->]. exists (c :: p). reflexivity. Qed.

Lemma text_suffix_app (p r : rstring) : text_suffix r (p ++ r).
Proof. exists p. reflexivity. Qed.

Lemma text_suffix_scalars (r s : rstring) : text_suffix r s -> scalars s = true -> scalars r = true.
Proof. intros [p ->]. rewrite scalars_app. intros H. apply andb_prop in H as [_ H]. exact H. Qed.

Lemma scalars_rev (s : rstring) : scalars s = true -> scalars (rev s) = true.
Proof.
  induction s as [|c s IH]; [reflexivity|]. cbn [rev]. unfold scalars in *. cbn [forallb].
  intros H. apply andb_prop in H as [Hc Hs]. rewrite forallb_app, IH by exact Hs. cbn. rewrite Hc. reflexivity.
Qed.

Lemma hex_val_range (c v : Z) : hex_val c = Some v -> 0 <= v < 16.
Proof.
  unfold hex_val, is_digit. intros H.
  destruct ((48 <=? c) && (c <=? 57)) eqn:E1.
  { injection H as <-. apply andb_prop in E1 as [A B]. apply Z.leb_le in A, B. lia. }
  destruct ((97 <=? c) && (c <=? 102)) eqn:E2.
  { injection H as <-. apply andb_prop in E2 as [A B]. apply Z.leb_le in A, B. lia. }
  destruct ((65 <=? c) && (c <=? 70)) eqn:E3; [|discriminate].
  injection H as <-. apply andb_prop in E3 as [A B]. apply Z.leb_le in A, B. lia.
Qed.

Lemma hex4_ok (s r : rstring) (n : Z) : hex4 s = Some (n, r) -> 0 <= n < 65536 /\ text_suffix r s.
Proof.
  unfold hex4. destruct s as [|a [|b [|c [|d r0]]]]; try discriminate.
  destruct (hex_val a) as [a'|] eqn:Ea; [|discriminate].
  destruct (hex_val b) as [b'|] eqn:Eb; [|discriminate].
  destruct (hex_val c) as [c'|] eqn:Ec; [|discriminate].
  destruct (hex_val d) as [d'|] eqn:Ed; [|discriminate].
  intros H. injection H as <- <-.
  apply hex_val_range in Ea, Eb, Ec, Ed. split; [lia|]. exists [a; b; c; d]. reflexivity.
Qed.

Lemma parse_unicode_escape_ok (s r : rstring) (x : Z) :
  parse_unicode_escape s = Ok (x, r) -> is_scalar x = true /\ text_suffix r s.
Proof.
  unfold parse_unicode_escape.
  destruct (hex4 s) as [[n r0]|] eqn:E; [|discriminate]. apply hex4_ok in E as [Hn S0].
  destruct ((55296 <=? n) && (n <=? 56319)) eqn:Hi.
  - destruct (strip_prefix [92; 117] r0) as [r1|] eqn:P; [|discriminate].
    apply strip_prefix_app in P.
    destruct (hex4 r1) as [[m r2]|] eqn:E2; [|discriminate]. apply hex4_ok in E2 as [Hm S2].
    destruct ((56320 <=? m) && (m <=? 57343)) eqn:Lo; [|discriminate].
    intros H. injection H as <- <-. split.
    + revert Hi Lo. unfold is_scalar. zbool_prune.
    + apply (text_suffix_trans _ r1); [exact S2|]. apply (text_suffix_trans _ r0); [|exact S0].
      rewrite P. apply text_suffix_app.
  - destruct ((56320 <=? n) && (n <=? 57343)) eqn:Lo; [discriminate|].
    intros H. injection H as <- <-. split; [|exact S0].
    revert Hi Lo. unfold is_scalar. zbool_prune.
Qed.

Lemma simple_escape_scalar (e x : Z) : simple_escape e = Some x -> is_scalar x = true.
Proof.
  unfold simple_escape.
  repeat match goal with |- context [if ?b then _ else _] => destruct b end;
    intros H; try discriminate; injection H as <-; reflexivity.
Qed.

Lemma parse_str_ok (f : nat) (acc s x r : rstring) :
  scalars acc = true -> scalars s = true ->
  parse_str f acc s = Ok (x, r) -> scalars x = true /\ text_suffix r s.
Proof.
  revert acc s. induction f as [|f IH]; intros acc s Ha Hs; [discriminate|].
  destruct s as [|c t]; [discriminate|]. cbn [parse_str].
  pose proof Hs as Hs'. unfold scalars in Hs'. cbn [forallb] in Hs'.
  apply andb_prop in Hs' as [Hc Ht]. fold (scalars t) in Ht.
  destruct (c =? 34).
  { intros H. injection H as <- <-. split; [apply scalars_rev, Ha|apply text_suffix_cons, text_suffix_refl]. }
  destruct (c =? 92).
  { destruct t as [|e t']; [discriminate|].
    unfold scalars in Ht. cbn [forallb] in Ht. apply andb_prop in Ht as [He Ht']. fold (scalars t') in Ht'.
    destruct (simple_escape e) as [y|] eqn:Ee.
    - intros H. apply IH in H as [Hx Hr]; [| |exact Ht'].
      + split; [exact Hx|]. apply text_suffix_cons, text_suffix_cons, Hr.
      + unfold scalars. cbn [forallb]. rewrite (simple_escape_scalar e y Ee). exact Ha.
    - destruct (e =? 117); [|discriminate].
      intros H. apply res_bind_ok in H as ([y r''] & Hu & H).
      apply parse_unicode_escape_ok in Hu as [Hy Hr''].
      apply IH in H as [Hx Hr]; [| |eapply text_suffix_scalars; eauto].
      + split; [exact Hx|]. apply text_suffix_cons, text_suffix_cons. eapply text_suffix_trans; eauto.
      + unfold scalars. cbn [forallb]. rewrite Hy. exact Ha. }
  destruct (c <? 32); [discriminate|].
  intros H. apply IH in H as [Hx Hr]; [| |exact Ht].
  - split; [exact Hx|]. apply text_suffix_cons, Hr.
  - unfold scalars. cbn [forallb]. rewrite Hc. exact Ha.
Qed.

Lemma skip_ws_suffix' (s : rstring) : text_suffix (skip_ws s) s.
Proof. destruct (skip_ws_suffix s) as [p E]. exists p. exact E. Qed.

Lemma parse_scalars (f : nat) :
  (forall s v r, scalars s = true -> parse_value f s = Ok (v, r) ->
     json_scalars v = true /\ text_suffix r s) /\
  (forall b s l r, scalars s = true -> parse_elems f b s = Ok (l, r) ->
     forallb json_scalars l = true /\ text_suffix r s) /\
  (forall b s m r, scalars s = true -> parse_members f b s = Ok (m, r) ->
     forallb (fun '(k, x) => scalars k && json_scalars x) m = true /\ text_suffix r s).
Proof.
  induction f as [|f [IHv [IHe IHm]]]; [repeat split; discriminate|].
  split; [|split].
  - intros s v r Hs. cbn [parse_value].
    pose proof (skip_ws_suffix' s) as Sw. destruct (skip_ws s) as [|c t] eqn:Ew; [discriminate|].
    pose proof (text_suffix_scalars _ _ Sw Hs) as Hct.
    assert (Ht : scalars t = true).
    { eapply text_suffix_scalars; [apply text_suffix_cons, text_suffix_refl|exact Hct]. }
    assert (St : text_suffix t s) by (eapply text_suffix_trans; [apply text_suffix_cons, text_suffix_refl|exact Sw]).
    destruct (c =? 110).
    { destruct (strip_prefix (u "ull") t) as [r'|] eqn:P; [|discriminate].
      intros H. injection H as <- <-. split; [reflexivity|].
      apply strip_prefix_app in P. eapply text_suffix_trans; [|exact St]. rewrite P. apply text_suffix_app. }
    destruct (c =? 116).
    { destruct (strip_prefix (u "rue") t) as [r'|] eqn:P; [|discriminate].
      intros H. injection H as <- <-. split; [reflexivity|].
      apply strip_prefix_app in P. eapply text_suffix_trans; [|exact St]. rewrite P. apply text_suffix_app. }
    destruct (c =? 102).
    { destruct (strip_prefix (u "alse") t) as [r'|] eqn:P; [|discriminate].
      intros H. injection H as <- <-. split; [reflexivity|].
      apply strip_prefix_app in P. eapply text_suffix_trans; [|exact St]. rewrite P. apply text_suffix_app. }
    destruct ((c =? 45) || is_digit c).
    { intros H. apply res_bind_ok in H as ([raw r'] & P & H). injection H as <- <-.
      apply parse_number_app in P. rewrite P in Hct, Sw. rewrite scalars_app in Hct.
      apply andb_prop in Hct as [Hraw _]. split; [exact Hraw|].
      eapply text_suffix_trans; [apply text_suffix_app|exact Sw]. }
    destruct (c =? 34).
    { intros H. apply res_bind_ok in H as ([str r'] & P & H). injection H as <- <-.
      apply parse_str_ok in P as [Hx Hr]; [|reflexivity|exact Ht].
      split; [exact Hx|]. eapply text_suffix_trans; eauto. }
    destruct (c =? 91).
    { intros H. apply res_bind_ok in H as ([l r'] & P & H). injection H as <- <-.
      apply IHe in P as [Hl Hr]; [|exact Ht]. split; [exact Hl|]. eapply text_suffix_trans; eauto. }
    destruct (c =? 123); [|discriminate].
    intros H. apply res_bind_ok in H as ([m r'] & P & H). injection H as <- <-.
    apply IHm in P as [Hm Hr]; [|exact Ht]. split; [exact Hm|]. eapply text_suffix_trans; eauto.
  - intros b s l r Hs. cbn [parse_elems].
    pose proof (skip_ws_suffix' s) as Sw. destruct (skip_ws s) as [|c t] eqn:Ew; [discriminate|].
    pose proof (text_suffix_scalars _ _ Sw Hs) as Hct.
    destruct (c =? 93).
    { destruct b; [|discriminate]. intros H. injection H as <- <-. split; [reflexivity|].
      eapply text_suffix_trans; [apply text_suffix_cons, text_suffix_refl|exact Sw]. }
    intros H. apply res_bind_ok in H as ([v s1] & P & H).
    apply IHv in P as [Hv S1]; [|exact Hct].
    pose proof (skip_ws_suffix' s1) as Sw1. destruct (skip_ws s1) as [|d t1] eqn:Ew1; [discriminate|].
    assert (St1 : text_suffix t1 s).
    { eapply text_suffix_trans; [apply text_suffix_cons, text_suffix_refl|].
      eapply text_suffix_trans; [exact Sw1|]. eapply text_suffix_trans; [exact S1|exact Sw]. }
    destruct (d =? 44).
    { apply res_bind_ok in H as ([vs s2] & P & H). injection H as <- <-.
      apply IHe in P as [Hl S2]; [|eapply text_suffix_scalars; eauto].
      split; [cbn [forallb]; rewrite Hv, Hl; reflexivity|]. eapply text_suffix_trans; eauto. }
    destruct (d =? 93); [|discriminate]. injection H as <- <-.
    split; [cbn [forallb]; rewrite Hv; reflexivity|exact St1].
  - intros b s m r Hs. cbn [parse_members].
    pose proof (skip_ws_suffix' s) as Sw. destruct (skip_ws s) as [|c t] eqn:Ew; [discriminate|].
    pose proof (text_suffix_scalars _ _ Sw Hs) as Hct.
    assert (St : text_suffix t s) by (eapply text_suffix_trans; [apply text_suffix_cons, text_suffix_refl|exact Sw]).
    destruct (c =? 125).
    { destruct b; [|discriminate]. intros H. injection H as <- <-. split; [reflexivity|exact St]. }
    destruct (c =? 34); [|discriminate].
    intros H. apply res_bind_ok in H as ([k s1] & P & H).
    apply parse_str_ok in P as [Hk S1]; [|reflexivity|eapply text_suffix_scalars; eauto].
    pose proof (skip_ws_suffix' s1) as Sw1. destruct (skip_ws s1) as [|d t1] eqn:Ew1; [discriminate|].
    assert (St1 : text_suffix t1 s).
    { eapply text_suffix_trans; [apply text_suffix_cons, text_suffix_refl|].
      eapply text_suffix_trans; [exact Sw1|]. eapply text_suffix_trans; [exact S1|exact St]. }
    destruct (d =? 58); [|discriminate].
    apply res_bind_ok in H as ([v s2] & P & H).
    apply IHv in P as [Hv S2]; [|eapply text_suffix_scalars; eauto].
    pose proof (skip_ws_suffix' s2) as Sw2. destruct (skip_ws s2) as [|e t2] eqn:Ew2; [discriminate|].
    assert (St2 : text_suffix t2 s).
    { eapply text_suffix_trans; [apply text_suffix_cons, text_suffix_refl|].
      eapply text_suffix_trans; [exact Sw2|]. eapply text_suffix_trans; [exact S2|exact St1]. }
    destruct (e =? 44).
    { apply res_bind_ok in H as ([ms s3] & P & H). injection H as <- <-.
      apply IHm in P as [Hm S3]; [|eapply text_suffix_scalars; eauto].
      split; [cbn [forallb]; rewrite Hk, Hv, Hm; reflexivity|]. eapply text_suffix_trans; eauto. }
    destruct (e =? 125); [|discriminate]. injection H as <- <-.
    split; [cbn [forallb]; rewrite Hk, Hv; reflexivity|exact St2].
Qed.

Lemma parse_json_scalars (s : rstring) (v : json) :
  scalars s = true -> parse_json s = Ok v -> json_scalars v = true.
Proof.
  unfold parse_json. intros Hs H. apply res_bind_ok in H as ([v' r] & P & H).
  destruct (skip_ws r); [|discriminate]. injection H as <-.
  destruct (parse_scalars (S (length s))) as [Hv _]. apply (Hv s v' r Hs P).
Qed.

Lemma de_string_scalars (v : json) (x : rstring) :
  json_scalars v = true -> de_string v = Ok x -> scalars x = true.
Proof. destruct v; cbn; try discriminate. intros Hs H. injection H as <-. exact Hs. Qed.

Lemma de_option_string_scalars (v : json) (o : option rstring) :
  json_scalars v = true -> de_option de_string v = Ok o -> opt_scalars o.
Proof.
  intros Hv H x ->. destruct v; cbn in H; try discriminate.
  injection H as <-. exact Hv.
Qed.

Lemma static_fields_scalars (ms : list (rstring * json)) sc cs sc' cs' :
  forallb (fun '(k, x) => scalars k && json_scalars x) ms = true ->
  opt_scalars (or_none sc) ->
  static_fields ms sc cs = Ok (sc', cs') -> opt_scalars (or_none sc').
Proof.
  revert sc cs. induction ms as [|[k v] ms IH]; intros sc cs Hms Hsc.
  - cbn. intros H. injection H as <- <-. exact Hsc.
  - cbn [forallb] in Hms. apply andb_prop in Hms as [Hkv Hms].
    apply andb_prop in Hkv as [_ Hv]. cbn [static_fields].
    destruct (rstring_eqb k (u "search_characters")).
    { destruct sc; [discriminate|]. intros H. apply res_bind_ok in H as (x & Hx & H).
      apply (IH (Some x) cs Hms); [|exact H]. cbn [or_none]. eapply de_option_string_scalars; eauto. }
    destruct (rstring_eqb k (u "case_sensitive")).
    { destruct cs; [discriminate|]. intros H. apply res_bind_ok in H as (x & Hx & H).
      apply (IH _ _ Hms Hsc H). }
    apply (IH _ _ Hms Hsc).
Qed.

Lemma de_StaticData_scalars (v : json) (sd : StaticData) :
  json_scalars v = true -> de_StaticData v = Ok sd -> opt_scalars (search_characters sd).
Proof.
  intros Hv. destruct v as [| | | |l|ms]; cbn [de_StaticData]; try discriminate.
  - destruct l as [|a [|b rest]]; try discriminate.
    cbn in Hv. apply andb_prop in Hv as [Ha _].
    intros H. apply res_bind_ok in H as (sc & Hsc & H). apply res_bind_ok in H as (cs & _ & H).
    destruct rest; [|discriminate]. injection H as <-. cbn.
    eapply de_option_string_scalars; eauto.
  - intros H. apply res_bind_ok in H as ([sc cs] & P & H). injection H as <-. cbn.
    eapply static_fields_scalars; [exact Hv| |exact P]. intros x E. discriminate.
Qed.

Lemma input_fields_scalars (ms : list (rstring * json)) rq sd rq' sd' :
  forallb (fun '(k, x) => scalars k && json_scalars x) ms = true ->
  sd_scalars (or_none sd) ->
  input_fields ms rq sd = Ok (rq', sd') -> sd_scalars (or_none sd').
Proof.
  revert rq sd. induction ms as [|[k v] ms IH]; intros rq sd Hms Hsd.
  - cbn. intros H. injection H as <- <-. exact Hsd.
  - cbn [forallb] in Hms. apply andb_prop in Hms as [Hkv Hms].
    apply andb_prop in Hkv as [_ Hv]. cbn [input_fields].
    destruct (rstring_eqb k (u "request")).
    { destruct rq; [discriminate|]. intros H. apply res_bind_ok in H as (x & _ & H).
      apply (IH _ _ Hms Hsd H). }
    destruct (rstring_eqb k (u "static_data")).
    { destruct sd; [discriminate|]. intros H. apply res_bind_ok in H as (x & Hx & H).
      apply (IH rq (Some x) Hms); [|exact H]. cbn [or_none]. intros sd0 ->.
      destruct v; cbn in Hx; try discriminate;
        apply res_bind_ok in Hx as (y & Hy & E); injection E as <-;
        eapply de_StaticData_scalars; eauto. }
    apply (IH _ _ Hms Hsd).
Qed.

Lemma de_InputData_scalars (v : json) (d : InputData) :
  json_scalars v = true -> de_InputData v = Ok d -> sd_scalars (static_data d).
Proof.
  intros Hv. destruct v as [| | | |l|ms]; cbn [de_InputData]; try discriminate.
  - destruct l as [|a [|b rest]]; try discriminate.
    cbn in Hv. apply andb_prop in Hv as [_ Hv]. apply andb_prop in Hv as [Hb _].
    intros H. apply res_bind_ok in H as (rq & _ & H). apply res_bind_ok in H as (sd & Hsd & H).
    destruct rest; [|discriminate]. injection H as <-. cbn. intros sd0 ->.
    destruct b; cbn in Hsd; try discriminate;
      apply res_bind_ok in Hsd as (y & Hy & E); injection E as <-;
      eapply de_StaticData_scalars; eauto.
  - intros H. apply res_bind_ok in H as ([rq sd] & P & H).
    destruct rq; [|discriminate]. injection H as <-. cbn.
    eapply input_fields_scalars; [exact Hv| |exact P]. intros sd0 E. discriminate.
Qed.

Lemma count_characters_characters_scalars `{UnicodeTables} (h : Hasher) (s : rstring)
  (r : CharacterReport) :
  scalars s = true -> count_characters h s = Ok r -> scalars (characters r) = true.
Proof.
  intros Hs. rewrite count_characters_via_decode. unfold decode_input.
  destruct (parse_json s) as [v|e] eqn:P; cbn [res_bind]; [|discriminate].
  destruct (de_InputData v) as [d|e] eqn:D; [|discriminate].
  intros Hc. apply count_characters_data_ok in Hc as [_ ->]. cbn [characters].
  pose proof (de_InputData_scalars v d (parse_json_scalars s v Hs P) D) as Hsd.
  unfold matching_chars. destruct (static_data d) as [sd|]; [|reflexivity].
  specialize (Hsd sd eq_refl). destruct (search_characters sd) as [x|]; [|reflexivity].
  apply Hsd. reflexivity.
Qed.

Lemma escape_char_scalars (c : Z) : is_scalar c = true -> scalars (escape_char c) = true.
Proof.
  intros Hc. unfold escape_char.
  destruct (c =? 34); [reflexivity|]. destruct (c =? 92); [reflexivity|].
  destruct (c =? 8); [reflexivity|]. destruct (c =? 12); [reflexivity|].
  destruct (c =? 10); [reflexivity|]. destruct (c =? 13); [reflexivity|].
  destruct (c =? 9); [reflexivity|].
  destruct ((0 <=? c) && (c <? 32)) eqn:E.
  - apply andb_prop in E as [E1 E2]. apply Z.leb_le in E1. apply Z.ltb_lt in E2.
    assert (Q : 0 <= c / 16 < 16) by (split; [apply Z.div_pos|apply Z.div_lt_upper_bound]; lia).
    assert (R : 0 <= c mod 16 < 16) by (apply Z.mod_pos_bound; lia).
    unfold scalars, hex_digit. cbn [forallb].
    generalize dependent (c / 16); generalize dependent (c mod 16); intros.
    unfold is_scalar. zbool_prune.
  - unfold scalars. cbn [forallb]. rewrite Hc. reflexivity.
Qed.

Lemma escape_str_scalars (s : rstring) : scalars s = true -> scalars (escape_str s) = true.
Proof.
  intros Hs. unfold escape_str. unfold scalars at 1. cbn [forallb]. fold (scalars (flat_map escape_char s ++ [34])).
  rewrite scalars_app.
  assert (Hf : scalars (flat_map escape_char s) = true).
  { induction s as [|c s IH]; [reflexivity|]. unfold scalars in Hs. cbn [forallb] in Hs.
    apply andb_prop in Hs as [Hc Hs]. cbn [flat_map].
    rewrite scalars_app, escape_char_scalars, IH by assumption. reflexivity. }
  rewrite Hf. reflexivity.
Qed.

Lemma itoa_scalars (z : Z) : scalars (itoa z) = true.
Proof.
  destruct (itoa_spec z) as (d & ds & E & Hd & _). rewrite E, scalars_app.
  apply andb_true_intro. split; [destruct (z <? 0); reflexivity|].
  revert Hd. generalize (d :: ds). intros l. unfold scalars.
  induction l as [|x l IH]; [reflexivity|]. cbn [forallb]. intros H.
  apply andb_prop in H as [Hx Hl]. rewrite IH by exact Hl.
  unfold is_digit in Hx. revert Hx. unfold is_scalar. zbool_prune.
Qed.

Lemma join_comma_scalars (xs : list rstring) :
  forallb scalars xs = true -> scalars (join_comma xs) = true.
Proof.
  induction xs as [|x xs IH]; [reflexivity|]. cbn [forallb]. intros H.
  apply andb_prop in H as [Hx Hxs]. rewrite join_comma_cons.
  destruct xs as [|y r]; [rewrite app_nil_r; exact Hx|]. rewrite scalars_app, Hx. cbn. apply IH, Hxs.
Qed.

Lemma to_json_scalars (v : json) : json_scalars v = true -> scalars (to_json v) = true.
Proof.
  induction v as [| b | raw | s | l IHl | m IHm] using json_ind_nested; intros Hv.
  - reflexivity.
  - destruct b; reflexivity.
  - exact Hv.
  - apply escape_str_scalars, Hv.
  - cbn [json_scalars] in Hv. cbn [to_json]. unfold scalars at 1. cbn [forallb].
    fold (scalars (join_comma (map to_json l) ++ [93])). rewrite scalars_app.
    cut (scalars (join_comma (map to_json l)) = true); [intros ->; reflexivity|].
    apply join_comma_scalars.
    induction l as [|x l IH]; [reflexivity|]. cbn [forallb map] in Hv |- *.
    apply andb_prop in Hv as [Hx Hl]. inversion IHl as [|? ? Px Pl]; subst.
    rewrite Px, IH by assumption. reflexivity.
  - cbn [json_scalars] in Hv. cbn [to_json]. unfold scalars at 1. cbn [forallb].
    fold (scalars (join_comma (map (fun '(k, x) => escape_str k ++ 58 :: to_json x) m) ++ [125])).
    rewrite scalars_app.
    cut (scalars (join_comma (map (fun '(k, x) => escape_str k ++ 58 :: to_json x) m)) = true);
      [intros ->; reflexivity|].
    apply join_comma_scalars.
    induction m as [|[k x] m IH]; [reflexivity|]. cbn [forallb map] in Hv |- *.
    apply andb_prop in Hv as [Hkx Hm]. apply andb_prop in Hkx as [Hk Hx].
    inversion IHm as [|? ? Px Pm]; subst. cbn [snd] in Px.
    rewrite scalars_app, escape_str_scalars, IH by assumption. change (scalars (58 :: to_json x)) with (is_scalar 58 && scalars (to_json x)).
    rewrite Px by exact Hx. reflexivity.
Qed.

Lemma scalars_nonneg (s : rstring) : scalars s = true -> forallb (Z.leb 0) s = true.
Proof.
  unfold scalars. induction s as [|c s IH]; [reflexivity|]. cbn [forallb]. intros H.
  apply andb_prop in H as [Hc Hs]. rewrite IH by exact Hs. unfold is_scalar in Hc.
  apply andb_prop in Hc as [Hc _]. apply andb_prop in Hc as [Hc _]. rewrite Hc. reflexivity.
Qed.

Lemma as_i32_range (n : nat) : - 2 ^ 31 <= as_i32 n < 2 ^ 31.
Proof. unfold as_i32. pose proof (Z.mod_pos_bound (Z.of_nat n + 2 ^ 31) (2 ^ 32) ltac:(lia)). lia. Qed.

Lemma count_characters_count_range `{UnicodeTables} (h : Hasher) (s : rstring) (r : CharacterReport) :
  count_characters h s = Ok r -> - 2 ^ 31 <= count r < 2 ^ 31.
Proof.
  rewrite count_characters_via_decode. destruct (decode_input s) as [d|e]; [|discriminate].
  intros Hc. apply count_characters_data_ok in Hc as [_ ->]. apply as_i32_range.
Qed.

Lemma report_json_scalars (r : CharacterReport) :
  scalars (characters r) = true -> json_scalars (report_json r) = true.
Proof. intros Hc. unfold report_json. cbn [json_scalars forallb]. rewrite itoa_scalars, Hc. reflexivity. Qed.

Lemma report_json_wf (r : CharacterReport) :
  scalars (characters r) = true -> wf_json (report_json r) = true.
Proof.
  intros Hc. unfold report_json. cbn [wf_json forallb].
  rewrite is_itoa_itoa, (scalars_nonneg _ Hc). reflexivity.
Qed.

Lemma decode_report_json (r : CharacterReport) :
  - 2 ^ 31 <= count r < 2 ^ 31 -> scalars (characters r) = true ->
  decode_report (utf8_encode (to_json (report_json r))) = Ok r.
Proof.
  intros Hn Hc. unfold decode_report.
  rewrite from_utf8_utf8_encode by exact (to_json_scalars _ (report_json_scalars r Hc)).
  rewrite parse_json_to_json by exact (report_json_wf r Hc). cbn [res_bind].
  unfold report_json. cbn [de_CharacterReport report_fields].
  rewrite rstring_eqb_refl. rewrite de_i32_itoa by exact Hn. cbn [res_bind report_fields].
  change (rstring_eqb (u "characters") (u "count")) with false. rewrite rstring_eqb_refl.
  destruct r. reflexivity.
Qed.

Lemma CountCharacters_ok `{UnicodeTables} (h : Hasher) (input : list Z) (s : rstring) (r : CharacterReport) :
  forallb is_byte input = true -> from_utf8 input = Some s -> count_characters h s = Ok r ->
  exists out, CountCharacters h input = (0, {| out_buf := Some out; err_buf := None |})
              /\ decode_report out = Ok r.
Proof.
  intros Hb Hu Hc. exists (utf8_encode (to_json (report_json r))). split.
  - unfold CountCharacters. rewrite Hu, Hc. reflexivity.
  - apply decode_report_json; [eapply count_characters_count_range; eauto|].
    eapply count_characters_characters_scalars; [|exact Hc].
    exact (from_utf8_scalars (length input) input s (le_n _) Hb Hu).
Qed.

Lemma test_input_wf (b : rstring) (sc : option rstring) (cs : option bool) :
  scalars b = true -> opt_scalars sc -> wf_json (test_input_value b sc cs) = true.
Proof.
  intros Hb Hsc. apply scalars_nonneg in Hb. unfold test_input_value.
  assert (Hn := is_itoa_itoa (Z.of_nat (length (utf8_encode b)))).
  generalize dependent (itoa (Z.of_nat (length (utf8_encode b)))). intros n Hn.
  destruct sc as [s|], cs as [c|]; simpl; rewrite ?Hb, ?Hn;
    try rewrite (scalars_nonneg s (Hsc s eq_refl)); reflexivity.
Qed.

Lemma test_input_scalars (b : rstring) (sc : option rstring) (cs : option bool) :
  scalars b = true -> opt_scalars sc -> json_scalars (test_input_value b sc cs) = true.
Proof.
  intros Hb Hsc. unfold test_input_value.
  assert (Hn := itoa_scalars (Z.of_nat (length (utf8_encode b)))).
  generalize dependent (itoa (Z.of_nat (length (utf8_encode b)))). intros n Hn.
  destruct sc as [s|], cs as [c|]; simpl; rewrite ?Hb, ?Hn;
    try rewrite (Hsc s eq_refl); reflexivity.
Qed.

Lemma de_test_input (b : rstring) (sc : option rstring) (cs : option bool) :
  de_InputData (test_input_value b sc cs)
  = Ok {| request := {| body := b |}; static_data := test_config sc cs |}.
Proof.
  unfold test_input_value.
  generalize (itoa (Z.of_nat (length (utf8_encode b)))). intros n.
  destruct sc as [s|], cs as [c|]; simpl; reflexivity.
Qed.

Lemma decode_test_input (b : rstring) (sc : option rstring) (cs : option bool) :
  scalars b = true -> opt_scalars sc ->
  decode_input (create_test_input_with_config b sc cs)
  = Ok {| request := {| body := b |}; static_data := test_config sc cs |}.
Proof.
  intros Hb Hsc. unfold decode_input, create_test_input_with_config.
  rewrite parse_json_to_json by (apply test_input_wf; assumption). cbn [res_bind].
  apply de_test_input.
Qed.

(** ** The export, its output and the test harness *)

Definition naive_body : rstring := u "na" ++ [239] ++ u "ve".

(** X6: on any input bytes that are UTF-8, when [count_characters]
    succeeds on the decoded string, [CountCharacters] returns status 0,
    sets no error, and its output, read back as a [CharacterReport] the
    way the tests read it ([Json<CharacterReport>]), is exactly the
    report [count_characters] computed. *)
Theorem CountCharacters_output_decodes `{UnicodeTables} (h : Hasher) (input : list Z)
  (s : rstring) (r : CharacterReport) :
  forallb is_byte input = true ->
  from_utf8 input = Some s ->
  count_characters h s = Ok r ->
  exists out, CountCharacters h input = (0, {| out_buf := Some out; err_buf := None |})
              /\ decode_report out = Ok r.
Proof. apply CountCharacters_ok. Qed.

Lemma CountCharacters_output_decodes_witness :
  forallb is_byte (utf8_encode (create_test_input naive_body)) = true
  /\ from_utf8 (utf8_encode (create_test_input naive_body)) = Some (create_test_input naive_body)
  /\ count_characters h7 (create_test_input naive_body) = Ok {| count := 2; characters := default_vowels |}
  /\ exists out, CountCharacters h7 (utf8_encode (create_test_input naive_body))
                 = (0, {| out_buf := Some out; err_buf := None |})
                 /\ decode_report out = Ok {| count := 2; characters := default_vowels |}.
Proof.
  assert (H1 : forallb is_byte (utf8_encode (create_test_input naive_body)) = true)
    by (vm_compute; reflexivity).
  assert (H2 : from_utf8 (utf8_encode (create_test_input naive_body)) = Some (create_test_input naive_body))
    by (vm_compute; reflexivity).
  assert (H3 : count_characters h7 (create_test_input naive_body)
               = Ok {| count := 2; characters := default_vowels |}) by (vm_compute; reflexivity).
  split; [exact H1|]. split; [exact H2|]. split; [exact H3|].
  exact (CountCharacters_output_decodes h7 _ _ _ H1 H2 H3).
Defined.

(** X7: the JSON that [CountCharacters] writes for a report (the
    derived [Serialize] of [types::CharacterReport], then
    [serde_json::to_vec]) is read back by the derived [Deserialize] of
    the same struct ([serde_json::from_slice]) as the same report, for
    every [i32] count and every string. *)
Theorem report_roundtrip (r : CharacterReport) :
  - 2 ^ 31 <= count r < 2 ^ 31 -> forallb is_scalar (characters r) = true ->
  decode_report (utf8_encode (to_json (report_json r))) = Ok r.
Proof. apply decode_report_json. Qed.

Definition tricky_report : CharacterReport :=
  {| count := - 2 ^ 31; characters := [34; 92; 10; 1; 233; 8364; 128512] |}.

Lemma report_roundtrip_witness :
  (- 2 ^ 31 <= count tricky_report < 2 ^ 31)
  /\ forallb is_scalar (characters tricky_report) = true
  /\ decode_report (utf8_encode (to_json (report_json tricky_report))) = Ok tricky_report.
Proof.
  assert (H1 : - 2 ^ 31 <= count tricky_report < 2 ^ 31) by (cbn; lia).
  assert (H2 : forallb is_scalar (characters tricky_report) = true) by reflexivity.
  split; [exact H1|]. split; [exact H2|]. exact (report_roundtrip tricky_report H1 H2).
Defined.

(** X8: the input [create_test_input_with_config] builds is read by the
    plugin as the intended [InputData]: the body as [request.Body],
    and [static_data] present exactly when a search set or a case flag
    is given, holding them; the other request members are ignored. *)
Theorem create_test_input_decodes (b : rstring) (sc : option rstring) (cs : option bool) :
  forallb is_scalar b = true ->
  (forall s, sc = Some s -> forallb is_scalar s = true) ->
  decode_input (create_test_input_with_config b sc cs)
  = Ok {| request := {| body := b |};
          static_data := match sc, cs with
                         | None, None => None
                         | _, _ => Some {| search_characters := sc; case_sensitive := cs |}
                         end |}.
Proof. apply decode_test_input. Qed.

Lemma create_test_input_decodes_witness :
  forallb is_scalar (u "Hello WORLD") = true
  /\ (forall s, Some (u "elo") = Some s -> forallb is_scalar s = true)
  /\ decode_input (create_test_input_with_config (u "Hello WORLD") (Some (u "elo")) (Some true))
     = Ok {| request := {| body := u "Hello WORLD" |};
             static_data := Some {| search_characters := Some (u "elo"); case_sensitive := Some true |} |}.
Proof.
  assert (H1 : forallb is_scalar (u "Hello WORLD") = true) by reflexivity.
  assert (H2 : forall s, Some (u "elo") = Some s -> forallb is_scalar s = true)
    by (intros s E; injection E as <-; reflexivity).
  split; [exact H1|]. split; [exact H2|].
  exact (create_test_input_decodes (u "Hello WORLD") (Some (u "elo")) (Some true) H1 H2).
Defined.

(** X9: a test call [xtp_test::call("CountCharacters",
    create_test_input(b))] on an ASCII body, with its output read as a
    [Json<CharacterReport>], succeeds and yields the count the tests
    compute as their expected value, the number of chars of the body
    that ["aeiouAEIOU"] contains, and the set ["aeiouAEIOU"]. *)
Theorem test_call_default_ascii (h : Hasher) (b : rstring) :
  Forall (fun c => 0 <= c < 128) b -> Z.of_nat (length b) < 2 ^ 31 ->
  exists out,
    CountCharacters h (utf8_encode (create_test_input b))
    = (0, {| out_buf := Some out; err_buf := None |})
    /\ decode_report out
       = Ok {| count := Z.of_nat (length (List.filter (fun c => existsb (Z.eqb c) default_vowels) b));
               characters := default_vowels |}.
Proof.
  intros Hascii Hlen.
  assert (Hb : scalars b = true).
  { clear Hlen. unfold scalars. induction Hascii as [|c b Hc _ IH]; [reflexivity|]. cbn [forallb].
    rewrite IH. unfold is_scalar. zbool_prune. }
  set (s := create_test_input b).
  assert (Hs : scalars s = true).
  { apply to_json_scalars, test_input_scalars; [exact Hb|]. intros x E. discriminate E. }
  set (r := {| count := Z.of_nat (length (List.filter (fun c => existsb (Z.eqb c) default_vowels) b));
               characters := default_vowels |}).
  assert (Hc : count_characters h s = Ok r).
  { unfold s, create_test_input. rewrite count_characters_via_decode.
    rewrite decode_test_input by (exact Hb || (intros x E; discriminate E)).
    apply ascii_default_count; assumption. }
  exists (utf8_encode (to_json (report_json r))). split.
  - unfold CountCharacters. rewrite from_utf8_utf8_encode by exact Hs. rewrite Hc. reflexivity.
  - apply decode_report_json; [exact (count_characters_count_range h s r Hc)|reflexivity].
Qed.

Definition complex_json : rstring := q "{'message':'Hello World','active':true}".

Lemma test_call_default_ascii_witness :
  Forall (fun c => 0 <= c < 128) complex_json
  /\ Z.of_nat (length complex_json) < 2 ^ 31
  /\ exists out,
       CountCharacters h7 (utf8_encode (create_test_input complex_json))
       = (0, {| out_buf := Some out; err_buf := None |})
       /\ decode_report out
          = Ok {| count := Z.of_nat (length (List.filter (fun c => existsb (Z.eqb c) default_vowels)
                                                complex_json));
                  characters := default_vowels |}.
Proof.
  assert (Hb : Forall (fun c => 0 <= c < 128) complex_json)
    by (vm_compute; repeat constructor; discriminate).
  assert (Hl : Z.of_nat (length complex_json) < 2 ^ 31) by (vm_compute; reflexivity).
  split; [exact Hb|]. split; [exact Hl|].
  exact (test_call_default_ascii h7 complex_json Hb Hl).
Defined.

(** X10: a test call on the input [create_test_input_with_config]
    builds ends as [count_characters] does on the intended [InputData]:
    when that succeeds, status 0 and an output read back as the same
    report; when it fails, status -1 with that error and no output. *)
Theorem test_call_config `{UnicodeTables} (h : Hasher) (b : rstring) (sc : option rstring)
  (cs : option bool) :
  forallb is_scalar b = true ->
  (forall s, sc = Some s -> forallb is_scalar s = true) ->
  let d := {| request := {| body := b |};
              static_data := match sc, cs with
                             | None, None => None
                             | _, _ => Some {| search_characters := sc; case_sensitive := cs |}
                             end |} in
  (forall r, count_characters_data h d = Ok r ->
     exists out, CountCharacters h (utf8_encode (create_test_input_with_config b sc cs))
                 = (0, {| out_buf := Some out; err_buf := None |})
                 /\ decode_report out = Ok r)
  /\ (forall e, count_characters_data h d = Err e ->
        CountCharacters h (utf8_encode (create_test_input_with_config b sc cs))
        = return_error (CallError e)).
Proof.
  intros Hb Hsc d. set (s := create_test_input_with_config b sc cs).
  assert (Hs : scalars s = true) by (apply to_json_scalars, test_input_scalars; assumption).
  assert (Hcc : count_characters h s = count_characters_data h d).
  { unfold s. rewrite count_characters_via_decode, decode_test_input by assumption. reflexivity. }
  split.
  - intros r Hr. rewrite <- Hcc in Hr. exists (utf8_encode (to_json (report_json r))). split.
    + unfold CountCharacters. rewrite from_utf8_utf8_encode by exact Hs. rewrite Hr. reflexivity.
    + apply decode_report_json; [exact (count_characters_count_range h s r Hr)|].
      exact (count_characters_characters_scalars h s r Hs Hr).
  - intros e He. rewrite <- Hcc in He.
    unfold CountCharacters. rewrite from_utf8_utf8_encode by exact Hs. rewrite He. reflexivity.
Qed.

Lemma test_call_config_witness :
  forallb is_scalar (u "Hello WORLD") = true
  /\ (forall s, Some (u "elo") = Some s -> forallb is_scalar s = true)
  /\ count_characters_data h7 {| request := {| body := u "Hello WORLD" |};
        static_data := Some {| search_characters := Some (u "elo"); case_sensitive := Some true |} |}
     = Ok {| count := 4; characters := u "elo" |}
  /\ exists out,
       CountCharacters h7 (utf8_encode (create_test_input_with_config (u "Hello WORLD") (Some (u "elo")) (Some true)))
       = (0, {| out_buf := Some out; err_buf := None |})
       /\ decode_report out = Ok {| count := 4; characters := u "elo" |}.
Proof.
  assert (H1 : forallb is_scalar (u "Hello WORLD") = true) by reflexivity.
  assert (H2 : forall s, Some (u "elo") = Some s -> forallb is_scalar s = true)
    by (intros s E; injection E as <-; reflexivity).
  assert (H3 : count_characters_data h7 {| request := {| body := u "Hello WORLD" |};
        static_data := Some {| search_characters := Some (u "elo"); case_sensitive := Some true |} |}
     = Ok {| count := 4; characters := u "elo" |}) by (vm_compute; reflexivity).
  split; [exact H1|]. split; [exact H2|]. split; [exact H3|].
  exact (proj1 (test_call_config h7 (u "Hello WORLD") (Some (u "elo")) (Some true) H1 H2) _ H3).
Defined.

(** X11: serde_json reads back what it writes: a value whose numbers are
    integers and whose strings hold Unicode scalars, written compactly
    ([to_string], as the test harness does), is parsed by [from_str]
    (as [count_characters] does) to the same value. *)
Theorem serde_json_roundtrip (v : json) :
  wf_json v = true -> parse_json (to_json v) = Ok v.
Proof. apply parse_json_to_json. Qed.

Definition nested_value : json :=
  JObject [(u "a", JArray [JNumber (u "-12"); JString [34; 0; 31; 92; 8364]; JNull;
                           JObject []; JArray []; JBool false]);
           (u "b", JObject [(u "c", JBool true)])].

Lemma serde_json_roundtrip_witness :
  wf_json nested_value = true /\ parse_json (to_json nested_value) = Ok nested_value.
Proof.
  assert (H : wf_json nested_value = true) by (vm_compute; reflexivity).
  split; [exact H|]. exact (serde_json_roundtrip nested_value H).
Defined.
